(** * SageMaker streaming client: line reader and request driver

    A shallow embedding of [metron/core/llm_clients/sagemaker_client.py]:
    the [LineIterator] class (a byte buffer with a read cursor that cuts a
    chunked event stream into lines) and [SageMakerClient.send_llm_request]
    (the driver that builds the wire payload, drains the reader and fills a
    metrics record).

    Conventions of the embedding.
    - A [bytes] value is a [list byte]; the delimiter is byte [x0a].
    - [time.monotonic()] is a clock reading.  The clock is a function
      [clk : nat -> Z] giving the value of the n-th reading of a run, and the
      number of readings made so far is threaded through every operation.
    - The [while True] loop of [__next__] is one function for its body
      ([iteration]) and a fuel-indexed driver; [None] means the fuel ran out
      before the call returned or raised. *)

From Stdlib Require Import ZArith List Lia.
From Stdlib Require Import Strings.Byte Strings.String.
From stdpp Require Import gmap strings list fin_maps.

Import ListNotations.
Local Open Scope Z_scope.
Local Open Scope nat_scope.

(** ** Bytes *)

Abbreviation bytes := (list byte).

(** [ord("\n")] *)
Definition newline : byte := x0a.

Definition is_newline (b : byte) : bool := Byte.eqb b newline.

(** The [bytes] literal with the characters of [s]. *)
Definition lit (s : string) : bytes := list_byte_of_string s.

(** ** The event stream

    An event of the response stream is a dict.  The reader only asks whether
    the key ["PayloadPart"] is in it, and if so reads
    [chunk["PayloadPart"]["Bytes"]]. *)

Inductive chunk : Type :=
| PayloadPart (Bytes : bytes)
| UnknownEvent (name : string).

(** What [next(self.byte_iterator)] can do: hand over a chunk, or raise an
    exception of the transport with message [msg].  The empty list is the
    exhausted iterator, which raises [StopIteration] at every further call. *)

Inductive item : Type :=
| Chunk (c : chunk)
| Fault (msg : string).

(** ** LineIterator *)

Record LineIterator : Type := mkLineIterator {
  byte_iterator : list item;
  buffer : bytes;
  read_pos : nat;
  ttft : Z
}.

(** [LineIterator.__init__] *)
Definition LineIterator_init (stream : list item) : LineIterator :=
  {| byte_iterator := stream; buffer := []; read_pos := 0; ttft := 0%Z |}.

(** [io.BytesIO.readline] on the bytes after the stream position: everything
    up to and including the first newline, or everything that is left. *)
Fixpoint readline (rest : bytes) : bytes :=
  match rest with
  | [] => []
  | c :: rest' => if is_newline c then [c] else c :: readline rest'
  end.

(** [line[-1] == ord("\n")], for any [line]; false for the empty one, where
    the source never evaluates it. *)
Definition ends_with_newline (line : bytes) : bool :=
  match last line with
  | Some c => is_newline c
  | None => false
  end.

(** Truth value of a [bytes] object. *)
Definition truthy (line : bytes) : bool :=
  match line with [] => false | _ => true end.

(** What one pass through the body of [while True] ends with. *)
Inductive signal : Type :=
| Return (line : bytes) (first : Z) (now : Z)
| StopIteration
| Raise (msg : string)
| Continue.

Section Reader.

Variable clk : nat -> Z.

(** One pass through the loop body of [__next__], from a reader [it] after
    [t] clock readings. *)
Definition iteration (it : LineIterator) (t : nat) : signal * LineIterator * nat :=
  let line := readline (drop (read_pos it) (buffer it)) in
  if truthy line && ends_with_newline line then
    let '(first, t1) :=
      if (ttft it =? 0)%Z then (clk t, S t) else (ttft it, t) in
    (Return (removelast line) first (clk t1),
     {| byte_iterator := byte_iterator it; buffer := buffer it;
        read_pos := read_pos it + length line; ttft := first |},
     S t1)
  else if truthy line
          && (Z.of_nat (read_pos it) =? Z.of_nat (length (buffer it)) - 1)%Z then
    (Return line (ttft it) (clk t),
     {| byte_iterator := byte_iterator it; buffer := buffer it;
        read_pos := read_pos it + 1; ttft := ttft it |},
     S t)
  else
    match byte_iterator it with
    | [] =>
        if read_pos it <? length (buffer it) then (Continue, it, t)
        else (StopIteration, it, t)
    | Fault msg :: _ =>
        (Raise msg,
         {| byte_iterator := []; buffer := buffer it;
            read_pos := read_pos it; ttft := ttft it |}, t)
    | Chunk (UnknownEvent _) :: rest =>
        (Continue,
         {| byte_iterator := rest; buffer := buffer it;
            read_pos := read_pos it; ttft := ttft it |}, t)
    | Chunk (PayloadPart bs) :: rest =>
        (Continue,
         {| byte_iterator := rest; buffer := buffer it ++ bs;
            read_pos := read_pos it; ttft := ttft it |}, t)
    end.

(** [LineIterator.__next__]: repeat the body until it returns or raises. *)
Fixpoint __next__ (fuel : nat) (it : LineIterator) (t : nat)
  : option (signal * LineIterator * nat) :=
  match fuel with
  | O => None
  | S fuel' =>
      match iteration it t with
      | (Continue, it', t') => __next__ fuel' it' t'
      | r => Some r
      end
  end.

(** Iterating the reader to exhaustion, as a [for] loop over it does: the
    lines in order, and how the loop ended ([None] for [StopIteration],
    [Some msg] for an exception). *)
Fixpoint lines (fuel : nat) (it : LineIterator) (t : nat)
  : option (list (bytes * Z * Z) * option string) :=
  match fuel with
  | O => None
  | S fuel' =>
      match __next__ fuel' it t with
      | None => None
      | Some (Return line first now, it', t') =>
          match lines fuel' it' t' with
          | Some (ls, e) => Some ((line, first, now) :: ls, e)
          | None => None
          end
      | Some (Raise msg, _, _) => Some ([], Some msg)
      | Some (_, _, _) => Some ([], None)
      end
  end.

End Reader.

(** The line of a produced triple. *)
Definition line_of (triple : bytes * Z * Z) : bytes := fst (fst triple).

(** ** The request driver *)

(** The caller's objects live in a store: a [dict] is reached through a
    reference, and two names for one reference see each other's writes. *)
Definition loc := nat.

(** [os.environ] *)
Abbreviation environ := (gmap string string).

(** [not os.environ.get(name)]: the variable is unset, or set to the empty
    string. *)
Definition unset (env : environ) (name : string) : bool :=
  match env !! name with
  | None => true
  | Some EmptyString => true
  | Some _ => false
  end.

Record ChatMessage : Type := { role : string; content : string }.

(** Modelled from the spec: the request metrics record ([RequestMetrics] of
    [metron.metrics.request_metrics], whose declaration is not among the
    sources), with the five fields the driver fills in: the inter-token
    durations, the two token counts and the optional error code and message. *)
Record RequestMetrics : Type := {
  inter_token_times : list Z;
  num_prompt_tokens : nat;
  num_output_tokens : nat;
  error_code : option Z;
  error_msg : option string
}.

(** How a call of [send_llm_request] ends: with the [ValueError] of the
    configuration check, or with its pair of results. *)
Inductive outcome : Type :=
| Raised (ValueError : string)
| Returned (metrics : RequestMetrics) (generated_text : string).

Section Driver.

(** Values of sampling parameters; the client never looks inside one. *)
Context {value : Type}.

Abbreviation dict := (gmap string value).
Abbreviation store := (gmap loc dict).

(** Modelled from the spec: the request configuration ([RequestConfig] of
    [metron.core.request_config], whose declaration is not among the
    sources): the prompt with its token count, the model identifier and the
    caller's sampling-parameter mapping, held by reference. *)
Record RequestConfig : Type := {
  prompt : string * nat;
  model : string;
  sampling_params : loc
}.

(** The wire payload handed to [json.dumps]. *)
Record Message : Type := {
  inputs : list (list ChatMessage);
  parameters : dict
}.

(** What reaches the network layer, in order. *)
Inductive net_event : Type :=
| boto3_client (service_name : string) (region_name : option string)
| invoke_endpoint_with_response_stream
    (EndpointName ContentType : string) (Body : Message)
    (CustomAttributes : string).

(** The collaborators of one run:
    - the clock;
    - the endpoint: for a model and a payload, the exception the call raises
      or the event stream in the response's ["Body"];
    - [json.loads(json_byte)[0]["generation"]["content"]]: the message of
      the exception raised on the way, or the text;
    - the tokenizer behind [self.get_token_length].
    Building the client ([boto3.client]), serializing the payload
    ([json.dumps]) and the tokenizer are taken to return; each is recorded
    or applied where the source calls it. *)
Variable clk : nat -> Z.
Variable endpoint : string -> Message -> string + list item.
Variable json_content : bytes -> string + string.
Variable get_token_length : string -> nat.

(** [d[k] = v] and [del d[k]] on the dict behind reference [l]. *)
Definition setitem (l : loc) (k : string) (v : value) (h : store) : store :=
  <[l := <[k := v]> (h !!! l)]> h.

Definition delitem (l : loc) (k : string) (h : store) : store :=
  <[l := delete k (h !!! l)]> h.

(** Lines 45-47: the renaming, through the reference. *)
Definition rename_max_tokens (l : loc) (h : store) : store :=
  match (h !!! l) !! "max_tokens" with
  | Some v => delitem l "max_tokens" (setitem l "max_new_tokens" v h)
  | None => h
  end.

(** Lines 49-59: the payload, with a copy of the dict the parameters are
    read from. *)
Definition message_of (prompt_text : string) (params : dict) : Message :=
  {| inputs := [[ {| role := "system"; content := EmptyString |};
                  {| role := "user"; content := prompt_text |} ]];
     parameters := params |}.

(** The [for line, _, _ in LineIterator(event_stream)] loop.  It ends with
    the exception that left it, if any, and the values of [json_byte] and
    [inter_token_times] at that point. *)
Fixpoint for_loop (fuel : nat) (it : LineIterator) (t : nat)
    (json_byte : bytes) (inter_token_times : list Z)
    (most_recent_received_token_time : Z)
  : option (option string * bytes * list Z) :=
  match fuel with
  | O => None
  | S fuel' =>
      match __next__ clk fuel' it t with
      | None => None
      | Some (Return line _ _, it', t') =>
          for_loop fuel' it' (S (S t'))
            (json_byte ++ line)
            (inter_token_times ++ [(clk t' - most_recent_received_token_time)%Z])
            (clk (S t'))
      | Some (Raise msg, _, _) => Some (Some msg, json_byte, inter_token_times)
      | Some (_, _, _) => Some (None, json_byte, inter_token_times)
      end
  end.

(** The body of [try]: the exception caught by [except Exception], if any,
    with [inter_token_times], [generated_text] and [tokens_received] as the
    code after the [try] finds them. *)
Definition try_block (fuel : nat) (model : string) (message : Message)
    (most_recent_received_token_time : Z)
  : option (option string * list Z * string * nat) :=
  match endpoint model message with
  | inl msg => Some (Some msg, [], EmptyString, 0)
  | inr event_stream =>
      match for_loop fuel (LineIterator_init event_stream) 1 [] []
              most_recent_received_token_time with
      | None => None
      | Some (Some msg, _, inter_token_times) =>
          Some (Some msg, inter_token_times, EmptyString, 0)
      | Some (None, json_byte, inter_token_times) =>
          match json_content json_byte with
          | inl msg => Some (Some msg, inter_token_times, EmptyString, 0)
          | inr generated_text =>
              Some (None, inter_token_times, generated_text,
                    get_token_length generated_text)
          end
      end
  end.

(** [SageMakerClient.send_llm_request]: the outcome ([None] when the fuel
    does not suffice to drain the stream), the store afterwards and the
    network events. *)
Definition send_llm_request (fuel : nat) (env : environ)
    (request_config : RequestConfig) (h : store)
  : option outcome * store * list net_event :=
  if unset env "AWS_ACCESS_KEY_ID" then
    (Some (Raised "AWS_ACCESS_KEY_ID must be set."), h, [])
  else if unset env "AWS_SECRET_ACCESS_KEY" then
    (Some (Raised "AWS_SECRET_ACCESS_KEY must be set."), h, [])
  else if unset env "AWS_REGION_NAME" then
    (Some (Raised "AWS_REGION_NAME must be set."), h, [])
  else
    let '(prompt_text, prompt_len) := prompt request_config in
    let sm_runtime := boto3_client "sagemaker-runtime" (env !! "AWS_REGION_NAME") in
    let h' := rename_max_tokens (sampling_params request_config) h in
    let message :=
      message_of prompt_text (h' !!! sampling_params request_config) in
    let net :=
      [sm_runtime;
       invoke_endpoint_with_response_stream (model request_config)
         "application/json" message "accept_eula=true"] in
    match try_block fuel (model request_config) message (clk 0) with
    | None => (None, h', net)
    | Some (error, inter_token_times, generated_text, tokens_received) =>
        (Some (Returned
                 {| inter_token_times := inter_token_times;
                    num_prompt_tokens := prompt_len;
                    num_output_tokens := tokens_received;
                    error_code := match error with Some _ => Some 500%Z | None => None end;
                    error_msg := error |}
                 generated_text),
         h', net)
    end.

(** The failures of the [try] block, read off the collaborators: the call
    of the endpoint raises; or the event stream raises while the reader
    pulls from it; or the stream is read to its end and the body does not
    decode.  With the message of the failure comes the number of lines the
    reader produces before it. *)
Definition failure (fuel : nat) (model : string) (message : Message)
  : option (string * nat) :=
  match endpoint model message with
  | inl msg => Some (msg, 0)
  | inr event_stream =>
      match lines clk fuel (LineIterator_init event_stream) 1 with
      | Some (ls, Some msg) => Some (msg, length ls)
      | Some (ls, None) =>
          match json_content (concat (map line_of ls)) with
          | inl msg => Some (msg, length ls)
          | inr _ => None
          end
      | None => None
      end
  end.

End Driver.

(** The three variables the driver asks the environment for. *)
Definition required : list string :=
  ["AWS_ACCESS_KEY_ID"; "AWS_SECRET_ACCESS_KEY"; "AWS_REGION_NAME"].

(** A variable is set to something other than the empty string. *)
Definition configured (env : environ) (name : string) : Prop :=
  exists v, env !! name = Some v /\ v <> EmptyString.

(** A clock that never reads zero: the n-th reading is [n + 1]. *)
Definition ticks (n : nat) : Z := Z.of_nat n + 1.

(** The reader [it] with [stream] as what is left of its event stream. *)
Definition with_stream (it : LineIterator) (stream : list item) : LineIterator :=
  {| byte_iterator := stream; buffer := buffer it;
     read_pos := read_pos it; ttft := ttft it |}.

(** The bytes of the buffer that the cursor has not passed. *)
Definition unconsumed (it : LineIterator) : bytes :=
  drop (read_pos it) (buffer it).

(** A line can be cut from the buffer as it stands: one of the two [return]
    statements of [__next__] is taken. *)
Definition line_ready (it : LineIterator) : bool :=
  let line := readline (unconsumed it) in
  truthy line
  && (ends_with_newline line
      || (Z.of_nat (read_pos it) =? Z.of_nat (length (buffer it)) - 1)%Z).

(** An event stream without its unrecognized events. *)
Fixpoint recognized (stream : list item) : list item :=
  match stream with
  | [] => []
  | Chunk (UnknownEvent _) :: rest => recognized rest
  | x :: rest => x :: recognized rest
  end.

(** Two readers that differ at most in the unrecognized events still to
    come. *)
Definition same_but_unknown (it1 it2 : LineIterator) : Prop :=
  buffer it1 = buffer it2 /\ read_pos it1 = read_pos it2 /\
  ttft it1 = ttft it2 /\
  recognized (byte_iterator it1) = recognized (byte_iterator it2).

(** The bytes a stream carries: those of its payload chunks, in order. *)
Fixpoint payload_bytes (stream : list item) : bytes :=
  match stream with
  | [] => []
  | Chunk (PayloadPart bs) :: rest => bs ++ payload_bytes rest
  | _ :: rest => payload_bytes rest
  end.

(** Lines put back together with a delimiter after each. *)
Definition reinsert (ls : list bytes) : bytes :=
  concat (map (fun l => l ++ [newline]) ls).

(** A byte sequence with its delimiters deleted. *)
Definition without_newlines (l : bytes) : bytes :=
  List.filter (fun c => negb (is_newline c)) l.

(** The reader's cursor is inside its buffer. *)
Definition cursor_ok (it : LineIterator) : Prop :=
  read_pos it <= length (buffer it).

(** The data a reader has still to deliver: the unconsumed bytes of its
    buffer, then the bytes of the payload chunks to come. *)
Definition pending_data (it : LineIterator) : bytes :=
  unconsumed it ++ payload_bytes (byte_iterator it).

(** Two readers that differ at most in [ttft]. *)
Definition same_reading (it1 it2 : LineIterator) : Prop :=
  byte_iterator it1 = byte_iterator it2 /\ buffer it1 = buffer it2
  /\ read_pos it1 = read_pos it2.

(** Two signals that differ at most in their time stamps. *)
Definition same_signal (s1 s2 : signal) : Prop :=
  match s1, s2 with
  | Return l1 _ _, Return l2 _ _ => l1 = l2
  | StopIteration, StopIteration => True
  | Raise m1, Raise m2 => m1 = m2
  | Continue, Continue => True
  | _, _ => False
  end.

(** An environment with the three variables set, and a request whose
    sampling parameters are the dict behind reference 0. *)
Definition example_env : environ :=
  <["AWS_ACCESS_KEY_ID" := "key"]>
    (<["AWS_SECRET_ACCESS_KEY" := "secret"]>
       (<["AWS_REGION_NAME" := "eu-west-1"]> ∅)).

Definition example_request : @RequestConfig :=
  {| prompt := ("hello", 1); model := "llama"; sampling_params := 0 |}.

Definition example_store : gmap loc (gmap string Z) :=
  <[0 := <["max_tokens" := 50%Z]> (<["top_k" := 4%Z]> ∅)]> ∅.

(** An endpoint whose stream delivers the line [x] and then raises, and a
    decoder that rejects every body. *)
Definition example_endpoint (model : string) (message : @Message Z)
  : string + list item :=
  inr [Chunk (PayloadPart (lit "x" ++ [newline])); Fault "boom"].

Definition example_json (body : bytes) : string + string := inl "no body".

(** No stretch at the end of [data] that is free of delimiters is longer
    than one byte: the data is at most one byte, or one of its last two
    bytes is a delimiter. *)
Definition tail_at_most_one_byte (data : bytes) : Prop :=
  forall front back,
    data = front ++ back -> newline ∉ back -> length back <= 1.

(** A fresh reader over one chunk with a delimited line and a last byte,
    and the same reader after its first line. *)
Definition example_reader : LineIterator :=
  LineIterator_init [Chunk (PayloadPart (lit "x" ++ [newline] ++ lit "]"))].

Definition example_reader_after : LineIterator :=
  {| byte_iterator := []; buffer := lit "x" ++ [newline] ++ lit "]";
     read_pos := 2; ttft := 1%Z |}.

(** An endpoint whose stream is read to its end, a decoder that accepts
    every body, an endpoint whose stream ends in two undelimited bytes, and
    a store whose mapping has no [max_tokens]. *)
Definition example_endpoint_ok (model : string) (message : @Message Z)
  : string + list item :=
  inr [Chunk (PayloadPart (lit "[x" ++ [newline])); Chunk (PayloadPart (lit "]"))].

Definition example_json_ok (body : bytes) : string + string := inr "hi".

Definition example_endpoint_hang (model : string) (message : @Message Z)
  : string + list item :=
  inr [Chunk (PayloadPart (lit "ab"))].

Definition example_store_plain : gmap loc (gmap string Z) :=
  <[0 := <["top_k" := 4%Z]> ∅]> ∅.

(** * Properties of the reader *)

(** ** Scanning *)

Lemma is_newline_true c : is_newline c = true <-> c = newline.
Proof.
  unfold is_newline; split.
  - apply Byte.byte_dec_bl.
  - apply Byte.byte_dec_lb.
Qed.

Lemma is_newline_false c : is_newline c = false <-> c <> newline.
Proof.
  rewrite <- is_newline_true. destruct (is_newline c); split; congruence.
Qed.

Lemma readline_no_newline (l : bytes) :
  newline ∉ l -> readline l = l.
Proof.
  induction l as [|c l IH]; intros Hnl; [reflexivity|].
  apply not_elem_of_cons in Hnl as [Hc Hl]. simpl.
  assert (is_newline c = false) as -> by (apply is_newline_false; congruence).
  now rewrite IH.
Qed.

Lemma readline_app_newline (l rest : bytes) :
  newline ∉ l -> readline (l ++ newline :: rest) = l ++ [newline].
Proof.
  induction l as [|c l IH]; intros Hnl; simpl.
  - reflexivity.
  - apply not_elem_of_cons in Hnl as [Hc Hl].
    assert (is_newline c = false) as -> by (apply is_newline_false; congruence).
    now rewrite IH.
Qed.

Lemma ends_with_newline_snoc (l : bytes) c :
  ends_with_newline (l ++ [c]) = is_newline c.
Proof. unfold ends_with_newline. now rewrite last_snoc. Qed.

Lemma ends_with_newline_no_newline (l : bytes) :
  newline ∉ l -> ends_with_newline l = false.
Proof.
  destruct l as [|c l] using rev_ind; [reflexivity|]. intros Hnl.
  rewrite ends_with_newline_snoc. apply is_newline_false.
  intros ->. apply Hnl, elem_of_app. right. apply list_elem_of_singleton. reflexivity.
Qed.

Lemma truthy_length (l : bytes) : truthy l = negb (length l =? 0).
Proof. now destruct l. Qed.

(** ** One pass of the loop *)

Section ReaderFacts.

Variable clk : nat -> Z.

(** With no newline after the cursor and a region that is not one byte
    long, neither [return] is taken: the pass goes on to pull a chunk. *)
Lemma iteration_pulls it t :
  newline ∉ unconsumed it ->
  length (unconsumed it) <> 1 ->
  iteration clk it t =
    match byte_iterator it with
    | [] =>
        if read_pos it <? length (buffer it) then (Continue, it, t)
        else (StopIteration, it, t)
    | Fault msg :: _ => (Raise msg, with_stream it [], t)
    | Chunk (UnknownEvent _) :: rest => (Continue, with_stream it rest, t)
    | Chunk (PayloadPart bs) :: rest =>
        (Continue,
         {| byte_iterator := rest; buffer := buffer it ++ bs;
            read_pos := read_pos it; ttft := ttft it |}, t)
    end.
Proof.
  unfold unconsumed, iteration. intros Hnl Hlen.
  rewrite (readline_no_newline _ Hnl).
  rewrite (ends_with_newline_no_newline _ Hnl), andb_false_r.
  assert ((truthy (drop (read_pos it) (buffer it))
           && (Z.of_nat (read_pos it) =? Z.of_nat (length (buffer it)) - 1)%Z)
          = false) as ->.
  { apply andb_false_iff. rewrite length_drop in Hlen.
    destruct (Z.eqb_spec (Z.of_nat (read_pos it))
                (Z.of_nat (length (buffer it)) - 1)); [|now right].
    exfalso. lia. }
  reflexivity.
Qed.

(** A reader whose stream is exhausted and whose unconsumed region holds two
    or more bytes, none a newline, is a fixed point of the loop body. *)
Lemma iteration_stuck it t :
  byte_iterator it = [] ->
  newline ∉ unconsumed it ->
  2 <= length (unconsumed it) ->
  iteration clk it t = (Continue, it, t).
Proof.
  intros Hex Hnl Hlen. rewrite iteration_pulls by (auto; lia). rewrite Hex.
  unfold unconsumed in Hlen. rewrite length_drop in Hlen.
  destruct (Nat.ltb_spec (read_pos it) (length (buffer it))); [reflexivity | lia].
Qed.

(** Hence [__next__] never returns from such a state, whatever the fuel. *)
Lemma next_stuck it t :
  byte_iterator it = [] ->
  newline ∉ unconsumed it ->
  2 <= length (unconsumed it) ->
  forall fuel, __next__ clk fuel it t = None.
Proof.
  intros Hex Hnl Hlen fuel. induction fuel as [|fuel IH]; [reflexivity|].
  simpl. now rewrite iteration_stuck.
Qed.

(** [__next__] never hands [Continue] to its caller. *)
Lemma next_not_continue fuel it t it' t' :
  __next__ clk fuel it t <> Some (Continue, it', t').
Proof.
  revert it t. induction fuel as [|fuel IH]; intros it t; [discriminate|].
  simpl. destruct (iteration clk it t) as [[[] it1] t1] eqn:E;
    try discriminate. apply IH.
Qed.

(** More fuel does not change a result. *)
Lemma next_fuel_mono fuel fuel' it t r :
  __next__ clk fuel it t = Some r -> fuel <= fuel' ->
  __next__ clk fuel' it t = Some r.
Proof.
  revert fuel' it t. induction fuel as [|fuel IH]; intros fuel' it t H Hle;
    [discriminate|].
  destruct fuel' as [|fuel']; [lia|]. simpl in *.
  destruct (iteration clk it t) as [[[] it1] t1]; auto.
  apply IH; [assumption | lia].
Qed.

Lemma lines_fuel_mono fuel fuel' it t r :
  lines clk fuel it t = Some r -> fuel <= fuel' ->
  lines clk fuel' it t = Some r.
Proof.
  revert fuel' it t r. induction fuel as [|fuel IH]; intros fuel' it t r H Hle;
    [discriminate|].
  destruct fuel' as [|fuel']; [lia|]. simpl in *.
  destruct (__next__ clk fuel it t) as [[[sig it1] t1]|] eqn:E; [|discriminate].
  rewrite (next_fuel_mono _ fuel' _ _ _ E) by lia.
  destruct sig; auto.
  destruct (lines clk fuel it1 t1) as [[ls e]|] eqn:El; [|discriminate].
  rewrite (IH fuel' _ _ _ El) by lia. assumption.
Qed.

End ReaderFacts.

(** ** Unrecognized events *)

Section UnknownEvents.

Variable clk : nat -> Z.

Lemma iteration_ready it t :
  line_ready it = true ->
  exists line first now pos' t',
    iteration clk it t =
      (Return line first now,
       {| byte_iterator := byte_iterator it; buffer := buffer it;
          read_pos := pos'; ttft := first |}, t')
    /\ forall s, iteration clk (with_stream it s) t =
      (Return line first now,
       {| byte_iterator := s; buffer := buffer it;
          read_pos := pos'; ttft := first |}, t').
Proof.
  unfold line_ready, unconsumed, iteration, with_stream. simpl. intros H.
  destruct (truthy _) eqn:Ht; [|discriminate]. simpl in *.
  destruct (ends_with_newline _) eqn:He; simpl in *.
  - destruct (ttft it =? 0)%Z; eauto 10.
  - rewrite H. eauto 10.
Qed.

Lemma iteration_not_ready it t :
  line_ready it = false ->
  iteration clk it t =
    match byte_iterator it with
    | [] =>
        if read_pos it <? length (buffer it) then (Continue, it, t)
        else (StopIteration, it, t)
    | Fault msg :: _ => (Raise msg, with_stream it [], t)
    | Chunk (UnknownEvent _) :: rest => (Continue, with_stream it rest, t)
    | Chunk (PayloadPart bs) :: rest =>
        (Continue,
         {| byte_iterator := rest; buffer := buffer it ++ bs;
            read_pos := read_pos it; ttft := ttft it |}, t)
    end.
Proof.
  unfold line_ready, unconsumed, iteration, with_stream. intros H.
  destruct (truthy _) eqn:Ht; simpl in *; [|reflexivity].
  apply orb_false_iff in H as [-> ->]. reflexivity.
Qed.

Lemma line_ready_same it1 it2 :
  buffer it1 = buffer it2 -> read_pos it1 = read_pos it2 ->
  line_ready it1 = line_ready it2.
Proof. unfold line_ready, unconsumed. now intros -> ->. Qed.


Lemma with_stream_same it : with_stream it (byte_iterator it) = it.
Proof. now destruct it. Qed.

Lemma recognized_cons_inv s x r :
  recognized s = x :: r ->
  exists us s', s = us ++ x :: s' /\ recognized us = [] /\ recognized s' = r
                /\ forall name, x <> Chunk (UnknownEvent name).
Proof.
  induction s as [|y s IH]; [discriminate|]. intros H.
  destruct y as [[bs|name]|msg]; simpl in H.
  - injection H as <- <-. exists [], s. repeat split; discriminate.
  - destruct (IH H) as (us & s' & -> & Hus & Hs' & Hx).
    exists (Chunk (UnknownEvent name) :: us), s'. repeat split; assumption.
  - injection H as <- <-. exists [], s. repeat split; discriminate.
Qed.

Lemma recognized_app s1 s2 :
  recognized (s1 ++ s2) = recognized s1 ++ recognized s2.
Proof.
  induction s1 as [|[[bs|name]|msg] s1 IH]; simpl; now rewrite ?IH.
Qed.

(** Pulling a run of unrecognized events costs one pass each and changes
    nothing else. *)
Lemma next_skip_unknown us : forall it s t f,
  line_ready it = false ->
  recognized us = [] ->
  byte_iterator it = us ++ s ->
  __next__ clk (length us + f) it t = __next__ clk f (with_stream it s) t.
Proof.
  induction us as [|x us IH]; intros it s t f Hready Hus Hit; simpl in *.
  - now rewrite <- Hit, with_stream_same.
  - destruct x as [[bs|name]|msg]; try discriminate.
    rewrite (iteration_not_ready _ _ Hready), Hit.
    rewrite (IH _ s) by (auto; erewrite line_ready_same; eauto).
    reflexivity.
Qed.

(** Readers that differ in pending unrecognized events return the same
    thing from [__next__], and still differ in nothing else afterwards. *)
Lemma next_same_but_unknown fuel : forall it1 it2 t sig it1' t',
  same_but_unknown it1 it2 ->
  __next__ clk fuel it1 t = Some (sig, it1', t') ->
  exists fuel' it2',
    __next__ clk fuel' it2 t = Some (sig, it2', t')
    /\ same_but_unknown it1' it2'.
Proof.
  induction fuel as [|fuel IH]; intros it1 it2 t sig it1' t' HR H;
    [discriminate|].
  destruct HR as (Hb & Hp & Hf & Hs). simpl in H.
  destruct (line_ready it1) eqn:Hready.
  - (* a line is cut from the buffer: the stream is not looked at *)
    destruct (iteration_ready it1 t Hready) as (l & f & n & p & t1 & E1 & E2).
    rewrite E1 in H. injection H as <- <- <-.
    specialize (E2 (byte_iterator it2)).
    assert (with_stream it1 (byte_iterator it2) = it2) as Heq
      by (destruct it1, it2; simpl in *; now subst).
    rewrite Heq in E2. exists 1, {| byte_iterator := byte_iterator it2;
      buffer := buffer it1; read_pos := p; ttft := f |}. split.
    + simpl. now rewrite E2.
    + repeat split; assumption.
  - (* a chunk is pulled *)
    assert (line_ready it2 = false) as Hready2
      by (erewrite line_ready_same; eauto).
    rewrite (iteration_not_ready _ _ Hready) in H.
    destruct (byte_iterator it1) as [|[[bs|name]|msg] rest] eqn:Hit1;
      simpl in Hs.
    + (* exhausted: the other reader has only unrecognized events left *)
      pose proof (next_skip_unknown (byte_iterator it2) it2 [] t) as Hskip.
      assert (with_stream it2 [] = it1) as Heq
        by (destruct it1, it2; simpl in *; now subst).
      rewrite Heq in Hskip.
      destruct (read_pos it1 <? length (buffer it1)) eqn:Hlt.
      * destruct (IH it1 it1 t sig it1' t') as (f' & it2' & E & HR');
          [repeat split; reflexivity | assumption |].
        exists (length (byte_iterator it2) + f'), it2'. split; [|assumption].
        rewrite Hskip; auto. now rewrite app_nil_r.
      * injection H as <- <- <-.
        exists (length (byte_iterator it2) + 1), it1. split.
        -- rewrite Hskip; auto; [|now rewrite app_nil_r]. simpl.
           rewrite (iteration_not_ready _ _ Hready), Hit1, Hlt. reflexivity.
        -- repeat split; reflexivity.
    + (* a payload chunk *)
      symmetry in Hs.
      destruct (recognized_cons_inv _ _ _ Hs) as (us & s' & Hit2 & Hus & Hs' & _).
      set (it2a := with_stream it2 (Chunk (PayloadPart bs) :: s')).
      assert (line_ready it2a = false) as Hready2a
        by (erewrite line_ready_same; eauto).
      assert (same_but_unknown
                {| byte_iterator := rest; buffer := buffer it1 ++ bs;
                   read_pos := read_pos it1; ttft := ttft it1 |}
                {| byte_iterator := s'; buffer := buffer it2 ++ bs;
                   read_pos := read_pos it2; ttft := ttft it2 |}) as HR
        by (repeat split; simpl; congruence).
      destruct (IH _ _ _ _ _ _ HR H) as (f' & it2' & E & HR').
      exists (length us + S f'), it2'. split; [|assumption].
      rewrite (next_skip_unknown us it2 _ t (S f') Hready2 Hus Hit2).
      fold it2a. simpl. rewrite (iteration_not_ready _ _ Hready2a). exact E.
    + (* an unrecognized event on this side *)
      apply (IH (with_stream it1 rest) it2 t sig it1' t'); [|assumption].
      repeat split; simpl; assumption.
    + (* the transport raises *)
      symmetry in Hs.
      destruct (recognized_cons_inv _ _ _ Hs) as (us & s' & Hit2 & Hus & Hs' & _).
      set (it2a := with_stream it2 (Fault msg :: s')).
      assert (line_ready it2a = false) as Hready2a
        by (erewrite line_ready_same; eauto).
      injection H as <- <- <-.
      exists (length us + 1), (with_stream it2 []). split.
      * rewrite (next_skip_unknown us it2 _ t 1 Hready2 Hus Hit2).
        fold it2a. simpl. rewrite (iteration_not_ready _ _ Hready2a). reflexivity.
      * repeat split; simpl; assumption.
Qed.

Lemma lines_same_but_unknown fuel : forall it1 it2 t r,
  same_but_unknown it1 it2 ->
  lines clk fuel it1 t = Some r ->
  exists fuel', lines clk fuel' it2 t = Some r.
Proof.
  induction fuel as [|fuel IH]; intros it1 it2 t r HR H; [discriminate|].
  simpl in H.
  destruct (__next__ clk fuel it1 t) as [[[sig it1'] t']|] eqn:E; [|discriminate].
  destruct (next_same_but_unknown _ _ _ _ _ _ _ HR E) as (f2 & it2' & E2 & HR').
  destruct sig as [line first now| |msg|].
  - destruct (lines clk fuel it1' t') as [[ls e]|] eqn:El; [|discriminate].
    injection H as <-.
    destruct (IH _ _ _ _ HR' El) as (f3 & El2).
    exists (S (max f2 f3)). simpl.
    rewrite (next_fuel_mono _ _ (max f2 f3) _ _ _ E2) by lia.
    rewrite (lines_fuel_mono _ _ (max f2 f3) _ _ _ El2) by lia. reflexivity.
  - exists (S f2). simpl. now rewrite E2.
  - exists (S f2). simpl. now rewrite E2.
  - exists (S f2). simpl. now rewrite E2.
Qed.

End UnknownEvents.


(** ** What a produced line is made of *)

Section Lines.

Variable clk : nat -> Z.

Lemma readline_spec (l : bytes) :
  ((newline ∉ l) /\ readline l = l)
  \/ (exists s r, l = s ++ newline :: r /\ (newline ∉ s)
                  /\ readline l = s ++ [newline]).
Proof.
  induction l as [|c l IH].
  - left. split; [apply not_elem_of_nil | reflexivity].
  - simpl. destruct (is_newline c) eqn:Hc.
    + apply is_newline_true in Hc as ->. right. exists [], l.
      repeat split. apply not_elem_of_nil.
    + apply is_newline_false in Hc. destruct IH as [[Hnl ->]|(s & r & -> & Hs & ->)].
      * left. split; [|reflexivity]. apply not_elem_of_cons. split; congruence.
      * right. exists (c :: s), r. repeat split.
        apply not_elem_of_cons. split; congruence.
Qed.

Lemma without_newlines_app (l1 l2 : bytes) :
  without_newlines (l1 ++ l2) = without_newlines l1 ++ without_newlines l2.
Proof. apply List.filter_app. Qed.

Lemma without_newlines_id (l : bytes) :
  newline ∉ l -> without_newlines l = l.
Proof.
  induction l as [|c l IH]; intros Hnl; [reflexivity|].
  apply not_elem_of_cons in Hnl as [Hc Hl]. simpl.
  assert (is_newline c = false) as -> by (apply is_newline_false; congruence).
  simpl. now rewrite IH.
Qed.

(** What one pass does to the data still to be read (the unconsumed bytes
    followed by the bytes of the pending payload chunks): a returned line
    is taken off its front, with or without a delimiter behind it; pulling
    a chunk leaves it as it is. *)
Lemma iteration_data it t sig it' t' :
  cursor_ok it ->
  iteration clk it t = (sig, it', t') ->
  cursor_ok it' /\
  match sig with
  | Return line _ _ =>
      (newline ∉ line) /\
      exists d, (d = [newline] \/ (d = [] /\ length line = 1)) /\
        unconsumed it ++ payload_bytes (byte_iterator it)
        = line ++ d ++ unconsumed it' ++ payload_bytes (byte_iterator it')
  | StopIteration =>
      unconsumed it ++ payload_bytes (byte_iterator it) = []
  | Raise _ => True
  | Continue =>
      unconsumed it ++ payload_bytes (byte_iterator it)
      = unconsumed it' ++ payload_bytes (byte_iterator it')
  end.
Proof.
  unfold cursor_ok, unconsumed, iteration. intros Hc H.
  destruct (readline_spec (drop (read_pos it) (buffer it)))
    as [[Hnl Hrl]|(s & r & Hl & Hs & Hrl)]; rewrite Hrl in H.
  - (* no delimiter after the cursor *)
    rewrite (ends_with_newline_no_newline _ Hnl), andb_false_r in H.
    destruct (truthy _ && _) eqn:Hsingle.
    + apply andb_true_iff in Hsingle as [Ht Hp]. apply Z.eqb_eq in Hp.
      injection H as <- <- <-. simpl.
      assert (length (drop (read_pos it) (buffer it)) = 1) as Hlen
        by (rewrite length_drop; lia).
      split; [lia|]. split; [assumption|]. exists []. split; [now right|].
      rewrite (drop_ge (buffer it) (read_pos it + 1)) by lia. reflexivity.
    + destruct (byte_iterator it) as [|[[bs|name]|msg] rest] eqn:Hit.
      * destruct (Nat.ltb_spec (read_pos it) (length (buffer it)));
          injection H as <- <- <-; rewrite ?Hit; split; auto.
        rewrite drop_ge by lia. reflexivity.
      * injection H as <- <- <-. simpl. rewrite length_app. split; [lia|].
        rewrite drop_app_le by lia. now rewrite <- app_assoc.
      * injection H as <- <- <-. simpl. split; [lia | reflexivity].
      * injection H as <- <- <-. simpl. split; [lia | exact I].
  - (* a delimiter after the cursor *)
    assert (truthy (s ++ [newline]) && ends_with_newline (s ++ [newline]) = true)
      as Hdel.
    { rewrite ends_with_newline_snoc. destruct s; reflexivity. }
    rewrite Hdel in H.
    assert (length (drop (read_pos it) (buffer it)) = length s + S (length r))
      as Hlen by (rewrite Hl, length_app; reflexivity).
    rewrite length_drop in Hlen.
    assert (drop (read_pos it + length (s ++ [newline])) (buffer it) = r) as Hr.
    { rewrite <- drop_drop, Hl, (cons_middle newline s r), app_assoc.
      apply drop_app_length. }
    destruct (ttft it =? 0)%Z; injection H as <- <- <-; simpl;
      rewrite removelast_last, Hr, Hl, length_app; simpl;
      (split; [lia|]); (split; [assumption|]);
      exists [newline]; (split; [now left|]);
      rewrite <- !app_assoc; reflexivity.
Qed.


Lemma next_data fuel : forall it t sig it' t',
  cursor_ok it ->
  __next__ clk fuel it t = Some (sig, it', t') ->
  cursor_ok it' /\
  match sig with
  | Return line _ _ =>
      (newline ∉ line) /\
      exists d, (d = [newline] \/ (d = [] /\ length line = 1)) /\
        pending_data it = line ++ d ++ pending_data it'
  | StopIteration => pending_data it = []
  | Raise _ => True
  | Continue => False
  end.
Proof.
  unfold pending_data.
  induction fuel as [|fuel IH]; intros it t sig it' t' Hc H; [discriminate|].
  simpl in H. destruct (iteration clk it t) as [[sig1 it1] t1] eqn:E.
  destruct (iteration_data _ _ _ _ _ Hc E) as [Hc1 Hd].
  destruct sig1; try (injection H as <- <- <-; split; assumption).
  rewrite Hd. apply (IH _ _ _ _ _ Hc1 H).
Qed.

(** The lines of a stream read to its end, laid end to end, are the pending
    data with the delimiters deleted: no byte is lost, added or reordered. *)
Lemma lines_data fuel : forall it t ls,
  cursor_ok it ->
  lines clk fuel it t = Some (ls, None) ->
  concat (map line_of ls) = without_newlines (pending_data it).
Proof.
  induction fuel as [|fuel IH]; intros it t ls Hc H; [discriminate|].
  simpl in H.
  destruct (__next__ clk fuel it t) as [[[sig it'] t']|] eqn:E; [|discriminate].
  destruct (next_data _ _ _ _ _ _ Hc E) as [Hc' Hd].
  destruct sig as [line first now| |msg|]; try discriminate.
  - destruct (lines clk fuel it' t') as [[ls' e]|] eqn:El; [|discriminate].
    injection H as <- ->. destruct Hd as (Hnl & d & Hdel & ->).
    rewrite !without_newlines_app, (without_newlines_id _ Hnl).
    rewrite <- (IH _ _ _ Hc' El). simpl. unfold line_of at 1. simpl.
    destruct Hdel as [->|[-> _]]; reflexivity.
  - injection H as <-. now rewrite Hd.
  - contradiction.
Qed.

Lemma cursor_ok_init stream : cursor_ok (LineIterator_init stream).
Proof. unfold cursor_ok. simpl. lia. Qed.

(** ** Time to first token *)

Lemma iteration_ttft it t sig it' t' :
  iteration clk it t = (sig, it', t') ->
  ttft it <> 0%Z -> ttft it' = ttft it.
Proof.
  unfold iteration. intros H Hnz.
  destruct (truthy _ && ends_with_newline _).
  - destruct (Z.eqb_spec (ttft it) 0); [contradiction|].
    injection H as <- <- <-. reflexivity.
  - destruct (truthy _ && _); [injection H as <- <- <-; reflexivity|].
    destruct (byte_iterator it) as [|[[bs|name]|msg] rest];
      [destruct (_ <? _)|..]; injection H as <- <- <-; reflexivity.
Qed.

(** Once set, [ttft] is never assigned again. *)
Lemma next_ttft_stable fuel : forall it t sig it' t',
  __next__ clk fuel it t = Some (sig, it', t') ->
  ttft it <> 0%Z -> ttft it' = ttft it.
Proof.
  induction fuel as [|fuel IH]; intros it t sig it' t' H Hnz; [discriminate|].
  simpl in H. destruct (iteration clk it t) as [[sig1 it1] t1] eqn:E.
  pose proof (iteration_ttft _ _ _ _ _ E Hnz) as E1.
  destruct sig1; try (injection H as <- <- <-; assumption).
  rewrite <- E1. apply (IH _ _ _ _ _ H). congruence.
Qed.

(** A line cut at a delimiter carries the clock reading taken for it as
    [ttft] when none was set before. *)
Lemma iteration_ttft_set it t :
  ttft it = 0%Z ->
  ends_with_newline (readline (unconsumed it)) = true ->
  exists line it',
    iteration clk it t = (Return line (clk t) (clk (S t)), it', S (S t))
    /\ ttft it' = clk t.
Proof.
  unfold iteration, unconsumed. intros Hz He. rewrite He, Hz.
  destruct (readline _); [discriminate|]. simpl. eauto.
Qed.

End Lines.

(** ** Cutting lines *)

Section Cutting.

Variable clk : nat -> Z.

(** A delimiter after the cursor: the bytes before it are the line, and the
    cursor moves behind the delimiter. *)
Lemma iteration_delimited it t (s r : bytes) :
  unconsumed it = s ++ newline :: r ->
  newline ∉ s ->
  iteration clk it t =
    let '(first, t1) :=
      if (ttft it =? 0)%Z then (clk t, S t) else (ttft it, t) in
    (Return s first (clk t1),
     {| byte_iterator := byte_iterator it; buffer := buffer it;
        read_pos := read_pos it + S (length s); ttft := first |},
     S t1).
Proof.
  unfold unconsumed, iteration. intros -> Hs.
  rewrite (readline_app_newline _ _ Hs), ends_with_newline_snoc.
  assert (truthy (s ++ [newline]) = true) as -> by now destruct s.
  simpl. rewrite removelast_last, length_app. simpl.
  replace (length s + 1) with (S (length s)) by lia. reflexivity.
Qed.

(** Exactly one byte after the cursor, not a delimiter: it is returned as a
    line, and [ttft] is returned and left as it was. *)
Lemma iteration_single it t c :
  unconsumed it = [c] ->
  c <> newline ->
  iteration clk it t =
    (Return [c] (ttft it) (clk t),
     {| byte_iterator := byte_iterator it; buffer := buffer it;
        read_pos := read_pos it + 1; ttft := ttft it |},
     S t).
Proof.
  unfold unconsumed, iteration. intros Hu Hc.
  assert (length (drop (read_pos it) (buffer it)) = 1) as Hlen by now rewrite Hu.
  rewrite length_drop in Hlen. rewrite Hu. simpl.
  assert (is_newline c = false) as Hn by now apply is_newline_false.
  rewrite Hn. unfold ends_with_newline. simpl. rewrite Hn.
  assert ((Z.of_nat (read_pos it) =? Z.of_nat (length (buffer it)) - 1)%Z = true)
    as -> by (apply Z.eqb_eq; lia).
  reflexivity.
Qed.

Lemma unconsumed_advance it n stream first :
  unconsumed {| byte_iterator := stream; buffer := buffer it;
                read_pos := read_pos it + n; ttft := first |}
  = drop n (unconsumed it).
Proof. unfold unconsumed. simpl. now rewrite drop_drop. Qed.

Lemma lines_step f1 f2 it t line first now it' t' ls e :
  __next__ clk f1 it t = Some (Return line first now, it', t') ->
  lines clk f2 it' t' = Some (ls, e) ->
  lines clk (S (max f1 f2)) it t = Some ((line, first, now) :: ls, e).
Proof.
  intros E El. simpl.
  rewrite (next_fuel_mono _ _ (max f1 f2) _ _ _ E) by lia.
  rewrite (lines_fuel_mono _ _ (max f1 f2) _ _ _ El) by lia. reflexivity.
Qed.

(** X8.  A line begun in the buffer and finished by the next payload chunk
    comes out whole, provided the part already buffered is not exactly one byte
    long. *)
Lemma line_across_chunks it t (u v w : bytes) rest :
  cursor_ok it ->
  unconsumed it = u -> length u <> 1 ->
  byte_iterator it = Chunk (PayloadPart (v ++ newline :: w)) :: rest ->
  newline ∉ u -> newline ∉ v ->
  exists first now it' t',
    __next__ clk 2 it t = Some (Return (u ++ v) first now, it', t')
    /\ unconsumed it' = w /\ byte_iterator it' = rest.
Proof.
  intros Hc Hu Hlen Hit Hnu Hnv. simpl.
  rewrite iteration_pulls by (rewrite Hu; assumption). rewrite Hit.
  set (it1 := {| byte_iterator := rest;
                 buffer := buffer it ++ v ++ newline :: w;
                 read_pos := read_pos it; ttft := ttft it |}).
  assert (unconsumed it1 = (u ++ v) ++ newline :: w) as Hu1.
  { unfold unconsumed, it1. simpl. unfold cursor_ok in Hc.
    rewrite drop_app_le by lia. fold (unconsumed it).
    now rewrite Hu, <- app_assoc. }
  assert (newline ∉ u ++ v) as Hnuv.
  { intros [H|H]%elem_of_app; contradiction. }
  rewrite (iteration_delimited it1 t _ _ Hu1 Hnuv).
  assert (drop (S (length (u ++ v))) (unconsumed it1) = w) as Hw.
  { rewrite Hu1, (cons_middle newline (u ++ v) w), app_assoc.
    replace (S (length (u ++ v))) with (length ((u ++ v) ++ [newline]))
      by (rewrite (length_app (u ++ v)); simpl; lia).
    apply drop_app_length. }
  destruct (ttft it1 =? 0)%Z; do 4 eexists; (split; [reflexivity|]);
    (split; [|reflexivity]); rewrite unconsumed_advance; exact Hw.
Qed.

Lemma lines_unfold fuel it t :
  lines clk (S fuel) it t =
    match __next__ clk fuel it t with
    | None => None
    | Some (Return line first now, it', t') =>
        match lines clk fuel it' t' with
        | Some (ls, e) => Some ((line, first, now) :: ls, e)
        | None => None
        end
    | Some (Raise msg, _, _) => Some ([], Some msg)
    | Some (_, _, _) => Some ([], None)
    end.
Proof. reflexivity. Qed.

(** A pass that only pulls a chunk costs the [for] loop one unit of fuel. *)
Lemma lines_after_pull fuel it t it1 t1 r :
  iteration clk it t = (Continue, it1, t1) ->
  lines clk fuel it1 t1 = Some r ->
  lines clk (S fuel) it t = Some r.
Proof.
  intros E H. destruct fuel as [|f]; [discriminate|].
  rewrite lines_unfold in H.
  destruct (__next__ clk f it1 t1) as [[[sig it'] t']|] eqn:En; [|discriminate].
  assert (__next__ clk (S f) it t = Some (sig, it', t')) as En'
    by (simpl; now rewrite E).
  rewrite lines_unfold, En'. destruct sig; try exact H.
  destruct (lines clk f it' t') as [[ls e]|] eqn:El; [|discriminate].
  rewrite (lines_fuel_mono _ _ (S f) _ _ _ El) by lia. exact H.
Qed.

(** A buffer holding [k] delimited segments and then one more byte, with
    nothing more to come, is read as the [k] segments and that byte. *)
Lemma delimited_then_tail (segs : list bytes) : forall pre c it t,
  buffer it = pre ++ reinsert segs ++ [c] ->
  read_pos it = length pre ->
  byte_iterator it = [] ->
  Forall (fun s => newline ∉ s) segs ->
  c <> newline ->
  exists fuel ls,
    lines clk fuel it t = Some (ls, None)
    /\ map line_of ls = segs ++ [[c]].
Proof.
  induction segs as [|s segs IH]; intros pre c it t Hb Hp Hit Hsegs Hc.
  - assert (unconsumed it = [c]) as Hu.
    { unfold unconsumed. rewrite Hb, Hp. simpl. apply drop_app_length. }
    exists 3, [([c], ttft it, clk t)]. split; [|reflexivity].
    simpl. rewrite (iteration_single _ _ _ Hu Hc).
    rewrite iteration_pulls.
    + simpl. rewrite Hit, Hb, Hp.
      destruct (Nat.ltb_spec (length pre + 1) (length (pre ++ reinsert [] ++ [c])));
        [|reflexivity].
      rewrite length_app in *. simpl in *. lia.
    + unfold unconsumed. simpl. rewrite Hb, Hp, drop_ge; [apply not_elem_of_nil|].
      rewrite length_app. simpl. lia.
    + unfold unconsumed. simpl. rewrite Hb, Hp, drop_ge; [simpl; lia|].
      rewrite length_app. simpl. lia.
  - apply Forall_cons in Hsegs as [Hs Hsegs].
    assert (unconsumed it = s ++ newline :: reinsert segs ++ [c]) as Hu.
    { unfold unconsumed. rewrite Hb, Hp, drop_app_length. unfold reinsert.
      simpl. now rewrite <- !app_assoc. }
    pose proof (iteration_delimited it t _ _ Hu Hs) as E.
    destruct (if (ttft it =? 0)%Z then (clk t, S t) else (ttft it, t))
      as [first t1] eqn:Eft.
    destruct (IH (pre ++ s ++ [newline]) c
                {| byte_iterator := byte_iterator it; buffer := buffer it;
                   read_pos := read_pos it + S (length s); ttft := first |}
                (S t1)) as (fuel & ls & El & Hls); simpl; auto.
    + rewrite Hb. unfold reinsert. simpl. now rewrite <- !app_assoc.
    + rewrite Hp, !length_app. simpl. lia.
    + exists (S (max 1 fuel)), ((s, first, clk t1) :: ls). split.
      * eapply lines_step; [|exact El]. simpl. now rewrite E.
      * simpl. now rewrite Hls.
Qed.

(** X9.  A fresh reader given, in one payload chunk, [k] segments each
    followed by a delimiter and then one more byte produces [k+1] lines: the
    segments in order, then that byte. *)
Lemma single_chunk_lines (segs : list bytes) c t :
  Forall (fun s => newline ∉ s) segs ->
  c <> newline ->
  exists fuel ls,
    lines clk fuel
      (LineIterator_init [Chunk (PayloadPart (reinsert segs ++ [c]))]) t
    = Some (ls, None)
    /\ map line_of ls = segs ++ [[c]].
Proof.
  intros Hsegs Hc.
  set (it1 := {| byte_iterator := []; buffer := reinsert segs ++ [c];
                 read_pos := 0; ttft := 0%Z |}).
  destruct (delimited_then_tail segs [] c it1 t) as (fuel & ls & El & Hls);
    auto.
  exists (S fuel), ls. split; [|assumption].
  eapply lines_after_pull; [|exact El]. reflexivity.
Qed.

End Cutting.

(** ** Lines do not depend on the clock *)

Section Clocks.

Variables clk1 clk2 : nat -> Z.

Lemma iteration_same_reading it1 it2 t1 t2 :
  same_reading it1 it2 ->
  same_signal (iteration clk1 it1 t1).1.1 (iteration clk2 it2 t2).1.1
  /\ same_reading (iteration clk1 it1 t1).1.2 (iteration clk2 it2 t2).1.2.
Proof.
  intros (Hi & Hb & Hp). unfold iteration. rewrite Hi, Hb, Hp.
  destruct (truthy _ && ends_with_newline _).
  - destruct (ttft it1 =? 0)%Z, (ttft it2 =? 0)%Z; simpl;
      repeat split; reflexivity.
  - destruct (truthy _ && _); [simpl; repeat split; reflexivity|].
    destruct (byte_iterator it2) as [|[[bs|name]|msg] rest] eqn:Hit2;
      [destruct (_ <? _)|..]; simpl; repeat split; auto; congruence.
Qed.

Lemma next_same_reading fuel : forall it1 it2 t1 t2 s1 it1' t1',
  same_reading it1 it2 ->
  __next__ clk1 fuel it1 t1 = Some (s1, it1', t1') ->
  exists s2 it2' t2',
    __next__ clk2 fuel it2 t2 = Some (s2, it2', t2')
    /\ same_signal s1 s2 /\ same_reading it1' it2'.
Proof.
  induction fuel as [|fuel IH]; intros it1 it2 t1 t2 s1 it1' t1' HR H;
    [discriminate|].
  simpl in *.
  destruct (iteration_same_reading it1 it2 t1 t2 HR) as [Hs HR'].
  destruct (iteration clk1 it1 t1) as [[sa ita] ta].
  destruct (iteration clk2 it2 t2) as [[sb itb] tb]. simpl in Hs, HR'.
  destruct sa, sb; try contradiction;
    try (injection H as <- <- <-; do 3 eexists; split; [reflexivity|];
         split; assumption).
  apply (IH _ _ _ _ _ _ _ HR' H).
Qed.

End Clocks.

(** * The reader against its claims *)

(** C1.  Payload chunks [a] and [\n]] carry one delimited segment and a tail
    byte, [a\n]], so two lines are claimed.  The reader produces three: the
    byte [a] is alone at the end of the buffer when the first chunk has been
    stored, and the rule meant for the last byte of the output returns it
    before the rest arrives. *)
Theorem tail_byte_rule_fires_before_the_tail clk :
  let stream := [Chunk (PayloadPart (lit "a"));
                 Chunk (PayloadPart (newline :: lit "]"))] in
  payload_bytes stream = reinsert [lit "a"] ++ lit "]"
  /\ lines clk 8 (LineIterator_init stream) 0
     = Some ([(lit "a", 0%Z, clk 0); ([], clk 1, clk 2); (lit "]", clk 1, clk 3)],
             None).
Proof. split; reflexivity. Qed.

(** C2.  A stream whose first line is the single byte []]: the line is
    returned by the single-byte rule with [ttft] equal to 0, the unset value,
    and [ttft] is 0 in the reader afterwards, whatever the clock reads.  The
    delimiter path assigns [ttft] before it returns; this path does not. *)
Theorem first_line_by_single_byte_rule_leaves_ttft_unset clk :
  __next__ clk 2 (LineIterator_init [Chunk (PayloadPart (lit "]"))]) 0
  = Some (Return (lit "]") 0%Z (clk 0),
          {| byte_iterator := []; buffer := lit "]"; read_pos := 1;
             ttft := 0%Z |},
          1).
Proof. reflexivity. Qed.

(** C3.  With the two bytes [ab] and no delimiter, [__next__] returns
    neither a line nor end-of-stream for any amount of fuel: after the
    transport is exhausted every pass finds [read_pos] below the buffer
    length and runs the loop again from the same state. *)
Theorem next_never_returns_on_undelimited_tail clk fuel :
  __next__ clk fuel (LineIterator_init [Chunk (PayloadPart (lit "ab"))]) 0 = None
  /\ lines clk fuel (LineIterator_init [Chunk (PayloadPart (lit "ab"))]) 0 = None.
Proof.
  assert (forall f,
    __next__ clk f (LineIterator_init [Chunk (PayloadPart (lit "ab"))]) 0 = None)
    as Hnext.
  { intros [|f]; [reflexivity|]. simpl.
    apply next_stuck; simpl; [reflexivity| |lia].
    intros H. repeat (apply elem_of_cons in H as [H|H]; [discriminate|]).
    now apply elem_of_nil in H. }
  split; [apply Hnext|].
  destruct fuel as [|f]; [reflexivity|]. rewrite lines_unfold. now rewrite Hnext.
Qed.

(** C4.  The line [ab] split as chunk [a] and chunk [b\n], so that one byte
    of it is at the end of the buffer: the reader returns the two fragments
    [a] and [b], not the line [ab]. *)
Theorem one_byte_fragment_is_returned_alone clk :
  lines clk 8
    (LineIterator_init [Chunk (PayloadPart (lit "a"));
                        Chunk (PayloadPart (lit "b" ++ [newline]))]) 0
  = Some ([(lit "a", 0%Z, clk 0); (lit "b", clk 1, clk 2)], None).
Proof. reflexivity. Qed.

(** C5.  The stream [{}\n] split as chunk [{] and chunk [}\n] ends with a
    delimiter, so the lines with a delimiter after each are claimed to give
    it back.  The reader produces [{] and [}], which give [{\n}\n]. *)
Theorem reinserting_delimiters_does_not_round_trip clk :
  let stream := [Chunk (PayloadPart (lit "{"));
                 Chunk (PayloadPart (lit "}" ++ [newline]))] in
  exists ls,
    lines clk 8 (LineIterator_init stream) 0 = Some (ls, None)
    /\ payload_bytes stream = lit "{}" ++ [newline]
    /\ reinsert (map line_of ls) = lit "{" ++ [newline] ++ lit "}" ++ [newline]
    /\ reinsert (map line_of ls) <> payload_bytes stream.
Proof.
  eexists. split; [reflexivity|]. repeat split. discriminate.
Qed.

(** C9.  An unrecognized event changes nothing in the reader.  The pass that
    pulls it leaves the buffer, the cursor and [ttft] as they were and goes
    round the loop again; and a stream with such an event anywhere in it is
    read as the same lines, with the same [ttft] and time stamps and the same
    ending, as the stream without it. *)
Theorem unknown_event_changes_nothing clk name :
  (forall it rest t,
     byte_iterator it = Chunk (UnknownEvent name) :: rest ->
     line_ready it = false ->
     iteration clk it t = (Continue, with_stream it rest, t))
  /\ (forall fuel it pre post t r,
        lines clk fuel (with_stream it (pre ++ post)) t = Some r ->
        exists fuel',
          lines clk fuel'
            (with_stream it (pre ++ Chunk (UnknownEvent name) :: post)) t
          = Some r).
Proof.
  split.
  - intros it rest t Hit Hready. rewrite (iteration_not_ready _ _ _ Hready).
    now rewrite Hit.
  - intros fuel it pre post t r H.
    apply (lines_same_but_unknown clk fuel (with_stream it (pre ++ post)));
      [|assumption].
    repeat split. simpl. now rewrite !recognized_app.
Qed.

Lemma unknown_event_changes_nothing_witness :
  iteration ticks
    (LineIterator_init [Chunk (UnknownEvent "ping");
                        Chunk (PayloadPart (lit "x" ++ [newline]))]) 0
  = (Continue,
     with_stream
       (LineIterator_init [Chunk (UnknownEvent "ping");
                           Chunk (PayloadPart (lit "x" ++ [newline]))])
       [Chunk (PayloadPart (lit "x" ++ [newline]))], 0)
  /\ exists fuel',
       lines ticks fuel'
         (with_stream (LineIterator_init [])
            ([Chunk (PayloadPart (lit "x" ++ [newline]))]
             ++ Chunk (UnknownEvent "ping")
                :: [Chunk (PayloadPart (lit "y" ++ [newline]))])) 0
       = Some ([(lit "x", 1%Z, 2%Z); (lit "y", 1%Z, 3%Z)], None).
Proof.
  split.
  - apply (proj1 (unknown_event_changes_nothing ticks "ping")); reflexivity.
  - apply (proj2 (unknown_event_changes_nothing ticks "ping") 8); reflexivity.
Defined.

(** * Properties of the driver *)

Lemma unset_false env name : unset env name = false <-> configured env name.
Proof.
  unfold unset, configured. split.
  - destruct (env !! name) as [[|c v]|]; try discriminate.
    intros _. eexists. split; [reflexivity | discriminate].
  - intros (v & -> & Hv). now destruct v.
Qed.

Lemma unset_true env name : unset env name = true <-> ~ configured env name.
Proof.
  rewrite <- unset_false. destruct (unset env name); split; congruence.
Qed.

Lemma same_reading_sym it1 it2 : same_reading it1 it2 -> same_reading it2 it1.
Proof. intros (? & ? & ?). repeat split; congruence. Qed.

Section DriverFacts.

Context {value : Type}.
Variable clk : nat -> Z.
Variable endpoint : string -> @Message value -> string + list item.
Variable json_content : bytes -> string + string.
Variable get_token_length : string -> nat.

(** The driver's loop takes one duration for each line the reader
    produces, and appends each line to the body, however the loop ends. *)
Lemma for_loop_lines clk' fuel : forall it1 it2 t1 t2 ls e jb itt mr,
  same_reading it1 it2 ->
  lines clk' fuel it2 t2 = Some (ls, e) ->
  exists itt',
    for_loop clk fuel it1 t1 jb itt mr
    = Some (e, jb ++ concat (map line_of ls), itt')
    /\ length itt' = length itt + length ls.
Proof.
  induction fuel as [|fuel IH]; intros it1 it2 t1 t2 ls e jb itt mr HR H;
    [discriminate|].
  simpl in *.
  destruct (__next__ clk' fuel it2 t2) as [[[s2 it2'] t2']|] eqn:E;
    [|discriminate].
  destruct (next_same_reading clk' clk fuel it2 it1 t2 t1 _ _ _
              (same_reading_sym _ _ HR) E) as (s1 & it1' & t1' & E1 & Hs & HR').
  rewrite E1. apply same_reading_sym in HR'.
  destruct s2 as [l f n| |m|], s1 as [l1 f1 n1| |m1|]; try contradiction;
    simpl in Hs; subst.
  - destruct (lines clk' fuel it2' t2') as [[ls' e']|] eqn:El; [|discriminate].
    injection H as <- <-.
    destruct (IH it1' it2' (S (S t1')) t2' ls' e' (jb ++ l1)
                (itt ++ [(clk t1' - mr)%Z]) (clk (S t1')) HR' El)
      as (itt' & -> & Hlen).
    exists itt'. split.
    + simpl. unfold line_of at 2. simpl. now rewrite app_assoc.
    + rewrite Hlen, length_app. simpl. lia.
  - injection H as <- <-. exists itt. simpl. rewrite app_nil_r. split; [reflexivity | lia].
  - injection H as <- <-. exists itt. simpl. rewrite app_nil_r. split; [reflexivity | lia].
  - injection H as <- <-. exists itt. simpl. rewrite app_nil_r. split; [reflexivity | lia].
Qed.

Lemma send_configured fuel env request_config h :
  (forall name, name ∈ required -> configured env name) ->
  send_llm_request clk endpoint json_content get_token_length
    fuel env request_config h =
    let h' := rename_max_tokens (sampling_params request_config) h in
    let message :=
      message_of (prompt request_config).1
        (h' !!! sampling_params request_config) in
    let net :=
      [boto3_client "sagemaker-runtime" (env !! "AWS_REGION_NAME");
       invoke_endpoint_with_response_stream (model request_config)
         "application/json" message "accept_eula=true"] in
    match try_block clk endpoint json_content get_token_length fuel
            (model request_config) message (clk 0) with
    | None => (None, h', net)
    | Some (error, inter_token_times, generated_text, tokens_received) =>
        (Some (Returned
                 {| inter_token_times := inter_token_times;
                    num_prompt_tokens := (prompt request_config).2;
                    num_output_tokens := tokens_received;
                    error_code :=
                      match error with Some _ => Some 500%Z | None => None end;
                    error_msg := error |}
                 generated_text),
         h', net)
    end.
Proof.
  intros Hall. unfold send_llm_request.
  assert (forall name, name ∈ required -> unset env name = false) as Hun
    by (intros name Hin; apply unset_false; auto).
  rewrite !Hun by (unfold required; set_solver).
  now destruct (prompt request_config).
Qed.

Lemma rename_max_tokens_renames l (h : gmap loc (gmap string value)) v :
  (h !!! l) !! "max_tokens" = Some v ->
  rename_max_tokens l h
  = <[l := delete "max_tokens" (<["max_new_tokens" := v]> (h !!! l))]> h.
Proof.
  intros H. unfold rename_max_tokens, delitem, setitem. rewrite H.
  now rewrite lookup_total_insert_eq, insert_insert_eq.
Qed.

Lemma send_returned_configured fuel env request_config h m text h' net :
  send_llm_request clk endpoint json_content get_token_length
    fuel env request_config h = (Some (Returned m text), h', net) ->
  forall name, name ∈ required -> configured env name.
Proof.
  unfold send_llm_request. intros H name Hin.
  destruct (unset env "AWS_ACCESS_KEY_ID") eqn:E1; [discriminate|].
  destruct (unset env "AWS_SECRET_ACCESS_KEY") eqn:E2; [discriminate|].
  destruct (unset env "AWS_REGION_NAME") eqn:E3; [discriminate|].
  unfold required in Hin.
  repeat (apply elem_of_cons in Hin as [->|Hin]; [now apply unset_false|]).
  now apply elem_of_nil in Hin.
Qed.

(** ** The driver against its claims *)

(** C6 (amended).  When the request fails, because the call of the endpoint
    raises, the event stream raises while it is read, or the body does not
    decode, [send_llm_request] returns a metrics record with error code 500
    and the message of the failure as error message, the empty string as
    generated text, no output tokens, and an inter-token list that is kept:
    it holds one duration for every line the reader produced before the
    failure. *)
Theorem failure_keeps_collected_timings fuel env request_config h msg n :
  (forall name, name ∈ required -> configured env name) ->
  failure clk endpoint json_content fuel (model request_config)
    (message_of (prompt request_config).1
       (rename_max_tokens (sampling_params request_config) h
          !!! sampling_params request_config))
  = Some (msg, n) ->
  exists m,
    (send_llm_request clk endpoint json_content get_token_length
       fuel env request_config h).1.1 = Some (Returned m EmptyString)
    /\ error_msg m = Some msg
    /\ error_code m = Some 500%Z
    /\ num_output_tokens m = 0
    /\ length (inter_token_times m) = n.
Proof.
  intros Hall Hf. rewrite (send_configured _ _ _ _ Hall).
  unfold failure in Hf. unfold try_block. cbv zeta.
  destruct (endpoint _ _) as [e|event_stream].
  - injection Hf as <- <-. eexists. split; [reflexivity|]. repeat split.
  - destruct (lines clk fuel (LineIterator_init event_stream) 1)
      as [[ls e]|] eqn:El; [|discriminate].
    destruct (for_loop_lines clk fuel (LineIterator_init event_stream)
                (LineIterator_init event_stream) 1 1 ls e [] [] (clk 0)
                ltac:(repeat split) El) as (itt' & -> & Hlen).
    simpl in Hlen. destruct e as [e|].
    + injection Hf as <- <-. eexists. split; [reflexivity|]. repeat split.
      assumption.
    + simpl. destruct (json_content _) as [e|text]; [|discriminate].
      injection Hf as <- <-. eexists. split; [reflexivity|]. repeat split.
      assumption.
Qed.

(** C7 (amended).  If one of the three variables is unset or set to the
    empty string, [send_llm_request] raises the configuration error naming
    such a variable, before anything reaches the network and with the
    caller's store untouched; if all three are set to non-empty strings it
    raises no configuration error. *)
Theorem configuration_is_checked_first fuel env request_config h :
  ((exists name, name ∈ required /\ ~ configured env name) ->
   exists name,
     name ∈ required /\ ~ configured env name
     /\ send_llm_request clk endpoint json_content get_token_length
    fuel env request_config h
        = (Some (Raised (name +:+ " must be set.")), h, []))
  /\ ((forall name, name ∈ required -> configured env name) ->
      forall msg, (send_llm_request clk endpoint json_content get_token_length
       fuel env request_config h).1.1 <> Some (Raised msg)).
Proof.
  split.
  - intros (name & Hin & Hname). unfold send_llm_request.
    destruct (unset env "AWS_ACCESS_KEY_ID") eqn:E1.
    { exists "AWS_ACCESS_KEY_ID". repeat split;
        [unfold required; repeat constructor | now apply unset_true]. }
    destruct (unset env "AWS_SECRET_ACCESS_KEY") eqn:E2.
    { exists "AWS_SECRET_ACCESS_KEY". repeat split;
        [unfold required; repeat constructor | now apply unset_true]. }
    destruct (unset env "AWS_REGION_NAME") eqn:E3.
    { exists "AWS_REGION_NAME". repeat split;
        [unfold required; repeat constructor | now apply unset_true]. }
    exfalso. apply Hname. unfold required in Hin.
    repeat (apply elem_of_cons in Hin as [->|Hin]; [now apply unset_false|]).
    now apply elem_of_nil in Hin.
  - intros Hall msg. rewrite (send_configured _ _ _ _ Hall). cbv zeta.
    destruct (try_block _ _ _ _ _ _ _ _) as [[[[e itt] text] n]|]; discriminate.
Qed.

(** C8.  With [max_tokens] bound to [v] in the sampling parameters, the
    payload passed to the endpoint has [max_new_tokens] bound to [v] and no
    [max_tokens] in its parameters block, and every other parameter as the
    caller gave it. *)
Theorem max_tokens_is_renamed_on_the_wire fuel env request_config h v :
  (forall name, name ∈ required -> configured env name) ->
  (h !!! sampling_params request_config) !! "max_tokens" = Some v ->
  exists body,
    (send_llm_request clk endpoint json_content get_token_length
       fuel env request_config h).2
    = [boto3_client "sagemaker-runtime" (env !! "AWS_REGION_NAME");
       invoke_endpoint_with_response_stream (model request_config)
         "application/json" body "accept_eula=true"]
    /\ parameters body !! "max_new_tokens" = Some v
    /\ parameters body !! "max_tokens" = None
    /\ forall k, k <> "max_tokens" -> k <> "max_new_tokens" ->
         parameters body !! k = (h !!! sampling_params request_config) !! k.
Proof.
  intros Hall Hv. rewrite (send_configured _ _ _ _ Hall). cbv zeta.
  eexists. split.
  - destruct (try_block _ _ _ _ _ _ _ _) as [[[[e itt] text] n]|]; reflexivity.
  - simpl. rewrite (rename_max_tokens_renames _ _ _ Hv), lookup_total_insert_eq.
    split; [|split].
    + rewrite lookup_delete_ne by discriminate. apply lookup_insert_eq.
    + apply lookup_delete_eq.
    + intros k Hk1 Hk2.
      rewrite lookup_delete_ne by congruence. apply lookup_insert_ne. congruence.
Qed.

(** C10.  When [send_llm_request] returns and the caller's mapping had
    [max_tokens] bound to [v], the mapping behind the caller's reference has
    changed: it has no [max_tokens], it has [max_new_tokens] bound to [v],
    and its other keys and the rest of the store are as before. *)
Theorem caller_mapping_is_renamed_in_place
    fuel env request_config h v m text h' net :
  send_llm_request clk endpoint json_content get_token_length
    fuel env request_config h = (Some (Returned m text), h', net) ->
  (h !!! sampling_params request_config) !! "max_tokens" = Some v ->
  exists d,
    h' !! sampling_params request_config = Some d
    /\ d !! "max_tokens" = None
    /\ d !! "max_new_tokens" = Some v
    /\ (forall k, k <> "max_tokens" -> k <> "max_new_tokens" ->
          d !! k = (h !!! sampling_params request_config) !! k)
    /\ (forall l, l <> sampling_params request_config -> h' !! l = h !! l).
Proof.
  intros H Hv. pose proof (send_returned_configured _ _ _ _ _ _ _ _ H) as Hall.
  rewrite (send_configured _ _ _ _ Hall) in H. cbv zeta in H.
  assert (h' = rename_max_tokens (sampling_params request_config) h) as ->.
  { destruct (try_block _ _ _ _ _ _ _ _) as [[[[e itt] txt] n]|];
      now injection H. }
  rewrite (rename_max_tokens_renames _ _ _ Hv).
  eexists. split; [apply lookup_insert_eq|]. repeat split.
  - apply lookup_delete_eq.
  - rewrite lookup_delete_ne by discriminate. apply lookup_insert_eq.
  - intros k Hk1 Hk2.
    rewrite lookup_delete_ne by congruence. apply lookup_insert_ne. congruence.
  - intros l Hl. apply lookup_insert_ne. congruence.
Qed.

End DriverFacts.

Lemma example_env_configured :
  forall name, name ∈ required -> configured example_env name.
Proof.
  intros name Hin. unfold required in Hin.
  repeat (apply elem_of_cons in Hin as [->|Hin];
          [eexists; split; [vm_compute; reflexivity | discriminate]|]).
  now apply elem_of_nil in Hin.
Qed.

(** ** The driver on concrete runs *)

(** C6, as stated, fails: the stream delivers one line and then raises, and
    the metrics record returned with the error holds the duration measured
    for that line. *)
Lemma partial_timings_are_reported :
  (send_llm_request ticks example_endpoint example_json String.length 8
     example_env example_request example_store).1.1
  = Some (Returned
            {| inter_token_times := [3%Z]; num_prompt_tokens := 1;
               num_output_tokens := 0; error_code := Some 500%Z;
               error_msg := Some "boom" |}
            EmptyString)
  /\ [3%Z] <> [].
Proof. split; [vm_compute; reflexivity | discriminate]. Qed.

Lemma failure_keeps_collected_timings_witness :
  exists m,
    (send_llm_request ticks example_endpoint example_json String.length 8
       example_env example_request example_store).1.1
    = Some (Returned m EmptyString)
    /\ error_msg m = Some "boom"
    /\ error_code m = Some 500%Z
    /\ num_output_tokens m = 0
    /\ length (inter_token_times m) = 1.
Proof.
  apply (failure_keeps_collected_timings ticks example_endpoint example_json
           String.length 8 example_env example_request example_store "boom" 1).
  - exact example_env_configured.
  - vm_compute. reflexivity.
Defined.

(** C7, as stated, fails: the three variables are all present, the access
    key with the empty string as its value, and the configuration error is
    raised. *)
Lemma present_but_empty_is_rejected :
  let env := <["AWS_ACCESS_KEY_ID" := EmptyString]> example_env in
  (forall name, name ∈ required -> is_Some (env !! name))
  /\ send_llm_request ticks example_endpoint example_json String.length 8
       env example_request example_store
     = (Some (Raised "AWS_ACCESS_KEY_ID must be set."), example_store, []).
Proof.
  split.
  - intros name Hin. unfold required in Hin.
    repeat (apply elem_of_cons in Hin as [->|Hin];
            [eexists; vm_compute; reflexivity|]).
    now apply elem_of_nil in Hin.
  - vm_compute. reflexivity.
Qed.

Lemma configuration_is_checked_first_witness :
  (exists name,
     name ∈ required
     /\ ~ configured (delete "AWS_REGION_NAME" example_env) name
     /\ send_llm_request ticks example_endpoint example_json String.length 8
          (delete "AWS_REGION_NAME" example_env) example_request example_store
        = (Some (Raised (name +:+ " must be set.")), example_store, []))
  /\ (forall msg,
        (send_llm_request ticks example_endpoint example_json String.length 8
           example_env example_request example_store).1.1
        <> Some (Raised msg)).
Proof.
  split.
  - apply (proj1 (configuration_is_checked_first ticks example_endpoint
                    example_json String.length 8
                    (delete "AWS_REGION_NAME" example_env)
                    example_request example_store)).
    exists "AWS_REGION_NAME". split; [repeat constructor|].
    intros (v & Hv & _). vm_compute in Hv. discriminate.
  - apply (proj2 (configuration_is_checked_first ticks example_endpoint
                    example_json String.length 8 example_env
                    example_request example_store)).
    exact example_env_configured.
Defined.

Lemma max_tokens_is_renamed_on_the_wire_witness :
  exists body,
    (send_llm_request ticks example_endpoint example_json String.length 8
       example_env example_request example_store).2
    = [boto3_client "sagemaker-runtime" (example_env !! "AWS_REGION_NAME");
       invoke_endpoint_with_response_stream (model example_request)
         "application/json" body "accept_eula=true"]
    /\ parameters body !! "max_new_tokens" = Some 50%Z
    /\ parameters body !! "max_tokens" = None
    /\ forall k, k <> "max_tokens" -> k <> "max_new_tokens" ->
         parameters body !! k
         = (example_store !!! sampling_params example_request) !! k.
Proof.
  apply (max_tokens_is_renamed_on_the_wire ticks example_endpoint example_json
           String.length 8 example_env example_request example_store 50%Z).
  - exact example_env_configured.
  - vm_compute. reflexivity.
Defined.

Lemma caller_mapping_is_renamed_in_place_witness :
  exists d,
    (<[0 := <["max_new_tokens" := 50%Z]> (<["top_k" := 4%Z]> ∅)]> ∅
       : gmap loc (gmap string Z))
      !! sampling_params example_request = Some d
    /\ d !! "max_tokens" = None
    /\ d !! "max_new_tokens" = Some 50%Z
    /\ (forall k, k <> "max_tokens" -> k <> "max_new_tokens" ->
          d !! k = (example_store !!! sampling_params example_request) !! k)
    /\ (forall l, l <> sampling_params example_request ->
          (<[0 := <["max_new_tokens" := 50%Z]> (<["top_k" := 4%Z]> ∅)]> ∅
             : gmap loc (gmap string Z)) !! l
          = example_store !! l).
Proof.
  apply (caller_mapping_is_renamed_in_place ticks example_endpoint example_json
           String.length 8 example_env example_request example_store 50%Z
           {| inter_token_times := [3%Z]; num_prompt_tokens := 1;
              num_output_tokens := 0; error_code := Some 500%Z;
              error_msg := Some "boom" |}
           EmptyString
           (<[0 := <["max_new_tokens" := 50%Z]> (<["top_k" := 4%Z]> ∅)]> ∅)
           [boto3_client "sagemaker-runtime" (Some "eu-west-1");
            invoke_endpoint_with_response_stream "llama" "application/json"
              (message_of "hello"
                 (<["max_new_tokens" := 50%Z]> (<["top_k" := 4%Z]> ∅)))
              "accept_eula=true"]).
  - vm_compute. reflexivity.
  - vm_compute. reflexivity.
Defined.

(** * Further properties of the reader *)

Section ReaderInvariants.

Variable clk : nat -> Z.

Lemma iteration_grows it t sig it' t' :
  iteration clk it t = (sig, it', t') ->
  read_pos it <= read_pos it' /\ t <= t'
  /\ exists bs, buffer it' = buffer it ++ bs.
Proof.
  unfold iteration. intros H.
  destruct (truthy _ && ends_with_newline _).
  - destruct (ttft it =? 0)%Z; injection H as <- <- <-; simpl;
      (split; [lia|]); (split; [lia|]); exists []; now rewrite app_nil_r.
  - destruct (truthy _ && _).
    + injection H as <- <- <-; simpl.
      split; [lia|]. split; [lia|]. exists []. now rewrite app_nil_r.
    + destruct (byte_iterator it) as [|[[bs|name]|msg] rest];
        [destruct (_ <? _)|..]; injection H as <- <- <-; simpl;
        (split; [lia|]); (split; [lia|]);
        first [now exists bs | exists []; now rewrite app_nil_r].
Qed.

Lemma next_grows fuel : forall it t sig it' t',
  __next__ clk fuel it t = Some (sig, it', t') ->
  read_pos it <= read_pos it' /\ t <= t'
  /\ exists bs, buffer it' = buffer it ++ bs.
Proof.
  induction fuel as [|fuel IH]; intros it t sig it' t' H; [discriminate|].
  simpl in H. destruct (iteration clk it t) as [[sig1 it1] t1] eqn:E.
  destruct (iteration_grows _ _ _ _ _ E) as (Hp & Ht & bs & Hb).
  destruct sig1; try (injection H as <- <- <-; eauto).
  destruct (IH _ _ _ _ _ H) as (Hp' & Ht' & bs' & Hb').
  split; [lia|]. split; [lia|]. exists (bs ++ bs').
  now rewrite Hb', Hb, <- app_assoc.
Qed.

(** X1.  A call of [__next__] that returns or raises leaves the cursor
    inside the buffer, never moves it backwards, and only appends to the
    buffer: the bytes before the old cursor are still there, unchanged. *)
Theorem cursor_advances_in_growing_buffer fuel it t sig it' t' :
  cursor_ok it ->
  __next__ clk fuel it t = Some (sig, it', t') ->
  read_pos it <= read_pos it' <= length (buffer it')
  /\ (exists bs, buffer it' = buffer it ++ bs)
  /\ take (read_pos it) (buffer it') = take (read_pos it) (buffer it).
Proof.
  intros Hc H.
  destruct (next_grows _ _ _ _ _ _ H) as (Hp & _ & bs & Hb).
  destruct (next_data clk _ _ _ _ _ _ Hc H) as [Hc' _].
  unfold cursor_ok in *. split; [lia|]. split; [now exists bs|].
  rewrite Hb. apply take_app_le. assumption.
Qed.

(** X2.  A line returned by [__next__] holds no delimiter and is the front
    of the data still to be delivered: either a delimiter follows it there
    and is consumed with it, or the line is a single byte. *)
Theorem returned_line_heads_pending_data fuel it t line first now it' t' :
  cursor_ok it ->
  __next__ clk fuel it t = Some (Return line first now, it', t') ->
  (newline ∉ line)
  /\ (pending_data it = line ++ newline :: pending_data it'
      \/ (length line = 1 /\ pending_data it = line ++ pending_data it')).
Proof.
  intros Hc H.
  destruct (next_data clk _ _ _ _ _ _ Hc H) as (_ & Hnl & d & [->|[-> Hlen]] & Hd).
  - split; [assumption|]. now left.
  - split; [assumption|]. right. split; assumption.
Qed.

(** X3.  [__next__] signals the end of the stream only when nothing is left
    to deliver: the event stream is exhausted, no payload byte is pending
    and the cursor is at the end of the buffer. *)
Theorem stop_only_when_all_is_delivered fuel it t it' t' :
  cursor_ok it ->
  __next__ clk fuel it t = Some (StopIteration, it', t') ->
  pending_data it = [] /\ byte_iterator it' = []
  /\ read_pos it' = length (buffer it').
Proof.
  intros Hc H. split; [apply (next_data clk _ _ _ _ _ _ Hc H)|].
  revert it t Hc H. induction fuel as [|fuel IH]; intros it t Hc H;
    [discriminate|].
  simpl in H. destruct (iteration clk it t) as [[sig1 it1] t1] eqn:E.
  destruct (iteration_data clk _ _ _ _ _ Hc E) as [Hc1 _].
  destruct sig1; try discriminate.
  - injection H as <- <-.
    destruct (line_ready it) eqn:Hready.
    + destruct (iteration_ready clk it t Hready) as (l & f & n & p & t2 & E1 & _).
      rewrite E1 in E. discriminate.
    + rewrite (iteration_not_ready clk _ _ Hready) in E.
      destruct (byte_iterator it) as [|[[bs|name]|msg] rest] eqn:Hit;
        try discriminate.
      destruct (Nat.ltb_spec (read_pos it) (length (buffer it)));
        [discriminate|].
      injection E as <- <-. unfold cursor_ok in Hc. split; [assumption | lia].
  - apply (IH _ _ Hc1 H).
Qed.

(** X4.  The lines of a reader iterated to the end of its stream, laid end
    to end, are exactly the data it had to deliver with the delimiters
    taken out; with as many lines, at least, as there were delimiters. *)
Theorem lines_are_the_data_without_delimiters fuel it t ls :
  cursor_ok it ->
  lines clk fuel it t = Some (ls, None) ->
  concat (map line_of ls) = without_newlines (pending_data it)
  /\ length (pending_data it) - length (without_newlines (pending_data it))
     <= length ls.
Proof.
  intros Hc H. split; [apply (lines_data clk fuel _ _ _ Hc H)|].
  revert it t ls Hc H.
  induction fuel as [|fuel IH]; intros it t ls Hc H; [discriminate|].
  rewrite lines_unfold in H.
  destruct (__next__ clk fuel it t) as [[[sig it'] t']|] eqn:E; [|discriminate].
  destruct (next_data clk _ _ _ _ _ _ Hc E) as [Hc' Hd].
  destruct sig as [line first now| |msg|]; try discriminate.
  - destruct (lines clk fuel it' t') as [[ls' e]|] eqn:El; [|discriminate].
    injection H as <- ->. destruct Hd as (Hnl & d & Hdel & ->).
    specialize (IH _ _ _ Hc' El).
    rewrite !without_newlines_app, (without_newlines_id _ Hnl), !length_app.
    simpl. destruct Hdel as [->|[-> _]]; simpl; lia.
  - injection H as <-. rewrite Hd. simpl. lia.
  - contradiction.
Qed.

Lemma next_first_is_ttft fuel : forall it t line first now it' t',
  __next__ clk fuel it t = Some (Return line first now, it', t') ->
  first = ttft it'.
Proof.
  induction fuel as [|fuel IH]; intros it t line first now it' t' H;
    [discriminate|].
  simpl in H. destruct (iteration clk it t) as [[sig1 it1] t1] eqn:E.
  destruct sig1; try discriminate; [|apply (IH _ _ _ _ _ _ _ H)].
  injection H as <- <- <- <- <-.
  destruct (line_ready it) eqn:Hready.
  - destruct (iteration_ready clk it t Hready) as (l & f & n & p & t2 & E1 & _).
    rewrite E1 in E. now injection E as <- <- <- <- <-.
  - rewrite (iteration_not_ready clk _ _ Hready) in E.
    destruct (byte_iterator it) as [|[[bs|name]|msg] rest];
      [destruct (_ <? _)|..]; discriminate.
Qed.

(** X5.  Once [ttft] is set in a reader, every line it produces from then
    on is returned with that same value. *)
Theorem set_ttft_is_reported_with_every_line fuel : forall it t ls e,
  ttft it <> 0%Z ->
  lines clk fuel it t = Some (ls, e) ->
  Forall (fun triple => triple.1.2 = ttft it) ls.
Proof.
  induction fuel as [|fuel IH]; intros it t ls e Hnz H; [discriminate|].
  rewrite lines_unfold in H.
  destruct (__next__ clk fuel it t) as [[[sig it'] t']|] eqn:E; [|discriminate].
  destruct sig as [line first now| |msg|];
    try (injection H as <- <-; constructor).
  destruct (lines clk fuel it' t') as [[ls' e']|] eqn:El; [|discriminate].
  injection H as <- <-.
  pose proof (next_first_is_ttft _ _ _ _ _ _ _ _ E) as Hf.
  pose proof (next_ttft_stable clk _ _ _ _ _ _ E Hnz) as Hs.
  constructor; [simpl; congruence|].
  rewrite <- Hs. apply (IH it' t' ls' e'); [congruence | exact El].
Qed.

End ReaderInvariants.

(** ** When the reader comes to an end *)

Section Termination.

Variable clk : nat -> Z.

(** X6.  A reader whose event stream is exhausted while two or more bytes
    without a delimiter among them are unconsumed never returns from
    [__next__], neither with a line nor with the end of the stream; a loop
    over it does not finish. *)
Theorem exhausted_reader_with_undelimited_bytes_hangs it t :
  byte_iterator it = [] ->
  newline ∉ unconsumed it ->
  2 <= length (unconsumed it) ->
  forall fuel,
    __next__ clk fuel it t = None /\ lines clk fuel it t = None.
Proof.
  intros Hit Hnl Hlen fuel.
  pose proof (next_stuck clk it t Hit Hnl Hlen) as Hstuck.
  split; [apply Hstuck|].
  destruct fuel as [|fuel]; [reflexivity|].
  rewrite lines_unfold. now rewrite Hstuck.
Qed.

Lemma tail_at_most_one_byte_suffix (a rest : bytes) :
  tail_at_most_one_byte (a ++ rest) -> tail_at_most_one_byte rest.
Proof.
  intros H front back -> Hnl. apply (H (a ++ front) back); [|assumption].
  now rewrite app_assoc.
Qed.

Lemma tail_at_most_one_byte_two (d : bytes) c1 c2 :
  c1 = newline \/ c2 = newline -> tail_at_most_one_byte (d ++ [c1; c2]).
Proof.
  intros Hc front back Heq Hnl.
  destruct (Nat.le_gt_cases (length back) 1) as [|Hlen]; [assumption|].
  exfalso.
  assert (exists back', back = back' ++ [c1; c2]) as [back' ->].
  { assert (length (d ++ [c1; c2]) = length (front ++ back)) as Hl
      by now rewrite Heq.
    rewrite !length_app in Hl. simpl in Hl.
    exists (take (length back - 2) back).
    rewrite <- (take_drop (length back - 2) back) at 1. f_equal.
    apply (f_equal (drop (length front + (length back - 2)))) in Heq.
    rewrite drop_app_length' in Heq by lia.
    rewrite <- drop_drop, drop_app_length in Heq. now symmetry. }
  apply Hnl, elem_of_app. right.
  destruct Hc as [->| ->]; [now left | right; now left].
Qed.

(** With a short tail, a pass that goes round the loop again has pulled an
    event: the loop body has no fixed point. *)
Lemma iteration_progress it t it' t' :
  cursor_ok it ->
  tail_at_most_one_byte (pending_data it) ->
  iteration clk it t = (Continue, it', t') ->
  length (byte_iterator it') < length (byte_iterator it).
Proof.
  intros Hc Htail E.
  destruct (line_ready it) eqn:Hready.
  { destruct (iteration_ready clk it t Hready) as (l & f & n & p & t2 & E1 & _).
    rewrite E1 in E. discriminate. }
  rewrite (iteration_not_ready clk _ _ Hready) in E.
  destruct (byte_iterator it) as [|[[bs|name]|msg] rest] eqn:Hit;
    try (injection E as <- <-; simpl; lia); try discriminate.
  destruct (Nat.ltb_spec (read_pos it) (length (buffer it))) as [Hlt|];
    [|discriminate].
  exfalso. unfold line_ready in Hready.
  assert (length (unconsumed it) = length (buffer it) - read_pos it) as Hlen
    by (unfold unconsumed; apply length_drop).
  destruct (readline_spec (unconsumed it)) as [[Hnl Hrl]|(s & r & Hu & Hs & Hrl)];
    rewrite Hrl in Hready.
  - assert (length (unconsumed it) <= 1) as Hle.
    { apply (Htail [] (unconsumed it)); [|assumption].
      unfold pending_data. rewrite Hit. simpl. now rewrite app_nil_r. }
    assert (truthy (unconsumed it) = true) as Ht
      by (destruct (unconsumed it); [simpl in Hlen; lia | reflexivity]).
    rewrite Ht, (ends_with_newline_no_newline _ Hnl) in Hready. simpl in Hready.
    apply Z.eqb_neq in Hready. lia.
  - rewrite ends_with_newline_snoc in Hready.
    assert (truthy (s ++ [newline]) = true) as Ht by now destruct s.
    rewrite Ht in Hready. discriminate.
Qed.

Lemma next_terminates n : forall it t,
  length (byte_iterator it) <= n ->
  cursor_ok it ->
  tail_at_most_one_byte (pending_data it) ->
  exists r, __next__ clk (S n) it t = Some r.
Proof.
  induction n as [|n IH]; intros it t Hn Hc Htail; simpl;
    destruct (iteration clk it t) as [[sig it1] t1] eqn:E;
    destruct sig; eauto;
    pose proof (iteration_progress _ _ _ _ Hc Htail E) as Hlt; [lia|].
  destruct (iteration_data clk _ _ _ _ _ Hc E) as [Hc1 Hd].
  apply IH; [lia | assumption |]. unfold pending_data. now rewrite <- Hd.
Qed.

Lemma lines_terminate m : forall it t,
  length (pending_data it) <= m ->
  cursor_ok it ->
  tail_at_most_one_byte (pending_data it) ->
  exists fuel ls e, lines clk fuel it t = Some (ls, e).
Proof.
  induction m as [|m IH]; intros it t Hm Hc Htail;
    destruct (next_terminates (length (byte_iterator it)) it t
                (Nat.le_refl _) Hc Htail) as [[[sig it'] t'] E];
    destruct (next_data clk _ _ _ _ _ _ Hc E) as [Hc' Hd];
    (destruct sig as [line first now| |msg|];
     [| exists (S (S (length (byte_iterator it)))), [], None;
        rewrite lines_unfold; now rewrite E
      | exists (S (S (length (byte_iterator it)))), [], (Some msg);
        rewrite lines_unfold; now rewrite E
      | contradiction]);
    destruct Hd as (Hnl & d & Hdel & Hd);
    assert (length (pending_data it)
            = length line + length d + length (pending_data it')) as Hlen
      by (rewrite Hd, !length_app; lia);
    assert (1 <= length line + length d) as Hpos
      by (destruct Hdel as [->|[-> ->]]; simpl; lia).
  - lia.
  - destruct (IH it' t') as (fuel' & ls & e & El); [lia | assumption | |].
    + apply (tail_at_most_one_byte_suffix (line ++ d)).
      now rewrite <- app_assoc, <- Hd.
    + eexists _, _, e. eapply lines_step; [exact E | exact El].
Qed.

(** X7.  If no delimiter-free stretch at the end of the data to deliver is
    longer than one byte, iterating the reader comes to an end, however the
    data is cut into chunks and whatever other events lie between them. *)
Theorem reader_finishes_when_tail_is_short it t :
  cursor_ok it ->
  tail_at_most_one_byte (pending_data it) ->
  exists fuel ls e, lines clk fuel it t = Some (ls, e).
Proof.
  intros Hc Htail. apply (lines_terminate (length (pending_data it)));
    [lia | assumption | assumption].
Qed.

End Termination.

(** ** What the lines depend on *)

Section Independence.

Variables clk1 clk2 : nat -> Z.

(** X10.  The bytes of the lines, and the way the iteration ends, do not
    depend on the clock, on the number of clock readings made before, or on
    the value of [ttft]: only on the stream, the buffer and the cursor. *)
Theorem lines_do_not_depend_on_the_clock fuel : forall it1 it2 t1 t2 ls1 e,
  same_reading it1 it2 ->
  lines clk1 fuel it1 t1 = Some (ls1, e) ->
  exists ls2,
    lines clk2 fuel it2 t2 = Some (ls2, e)
    /\ map line_of ls2 = map line_of ls1.
Proof.
  induction fuel as [|fuel IH]; intros it1 it2 t1 t2 ls1 e HR H;
    [discriminate|].
  rewrite lines_unfold in *.
  destruct (__next__ clk1 fuel it1 t1) as [[[s1 it1'] t1']|] eqn:E;
    [|discriminate].
  destruct (next_same_reading clk1 clk2 fuel _ _ t1 t2 _ _ _ HR E)
    as (s2 & it2' & t2' & -> & Hs & HR').
  destruct s1 as [l f n| |m|], s2 as [l2 f2 n2| |m2|]; try contradiction;
    simpl in Hs; subst;
    try (injection H as <- <-; exists []; split; reflexivity).
  destruct (lines clk1 fuel it1' t1') as [[ls1' e1]|] eqn:El; [|discriminate].
  injection H as <- <-.
  destruct (IH _ _ _ t2' _ _ HR' El) as (ls2' & -> & Hmap).
  eexists. split; [reflexivity|]. simpl. now rewrite Hmap.
Qed.

End Independence.

Section Streams.

Variable clk : nat -> Z.

Lemma recognized_idem s : recognized (recognized s) = recognized s.
Proof.
  induction s as [|[[bs|name]|msg] s IH]; simpl; now rewrite ?IH.
Qed.

(** X11.  A reader gives the same lines, time stamps and ending on a stream
    as on that stream with all its unrecognized events taken out. *)
Theorem unrecognized_events_do_not_matter it s t r :
  (exists fuel, lines clk fuel (with_stream it s) t = Some r)
  <-> (exists fuel, lines clk fuel (with_stream it (recognized s)) t = Some r).
Proof.
  split; intros [fuel H].
  - apply (lines_same_but_unknown clk fuel (with_stream it s)); [|assumption].
    repeat split. simpl. now rewrite recognized_idem.
  - apply (lines_same_but_unknown clk fuel (with_stream it (recognized s)));
      [|assumption].
    repeat split. simpl. now rewrite recognized_idem.
Qed.

Lemma iteration_stream it t sig it' t' :
  iteration clk it t = (sig, it', t') ->
  match sig with
  | Raise msg => Fault msg ∈ byte_iterator it
  | _ => exists pre, byte_iterator it = pre ++ byte_iterator it'
  end.
Proof.
  intros E. destruct (line_ready it) eqn:Hready.
  - destruct (iteration_ready clk it t Hready) as (l & f & n & p & t2 & E1 & _).
    rewrite E1 in E. injection E as <- <- <-. now exists [].
  - rewrite (iteration_not_ready clk _ _ Hready) in E.
    destruct (byte_iterator it) as [|[[bs|name]|msg] rest] eqn:Hit;
      [destruct (_ <? _)|..]; injection E as <- <- <-; simpl;
      rewrite ?Hit;
      first [ now exists [] | now eexists [_] | now left ].
Qed.

Lemma next_stream fuel : forall it t sig it' t',
  __next__ clk fuel it t = Some (sig, it', t') ->
  match sig with
  | Raise msg => Fault msg ∈ byte_iterator it
  | _ => exists pre, byte_iterator it = pre ++ byte_iterator it'
  end.
Proof.
  induction fuel as [|fuel IH]; intros it t sig it' t' H; [discriminate|].
  simpl in H. destruct (iteration clk it t) as [[sig1 it1] t1] eqn:E.
  pose proof (iteration_stream _ _ _ _ _ E) as H1.
  destruct sig1; try (injection H as <- <- <-; exact H1).
  destruct H1 as [pre Hpre]. specialize (IH _ _ _ _ _ H).
  rewrite Hpre. destruct sig.
  - destruct IH as [pre' ->]. exists (pre ++ pre'). now rewrite app_assoc.
  - destruct IH as [pre' ->]. exists (pre ++ pre'). now rewrite app_assoc.
  - apply elem_of_app. now right.
  - destruct IH as [pre' ->]. exists (pre ++ pre'). now rewrite app_assoc.
Qed.

(** X12.  The reader raises nothing of its own: when iterating it ends
    with an exception, that exception is one the event stream held, with
    its message unchanged.  So a stream that raises nothing is read without
    an exception. *)
Theorem raised_exception_comes_from_the_stream fuel : forall it t ls msg,
  lines clk fuel it t = Some (ls, Some msg) ->
  Fault msg ∈ byte_iterator it.
Proof.
  induction fuel as [|fuel IH]; intros it t ls msg H; [discriminate|].
  rewrite lines_unfold in H.
  destruct (__next__ clk fuel it t) as [[[sig it'] t']|] eqn:E; [|discriminate].
  pose proof (next_stream _ _ _ _ _ _ E) as Hs.
  destruct sig as [line first now| |m|]; try discriminate.
  - destruct (lines clk fuel it' t') as [[ls' e]|] eqn:El; [|discriminate].
    injection H as <- ->. destruct Hs as [pre ->].
    apply elem_of_app. right. apply (IH _ _ _ _ El).
  - now injection H as <- <-.
Qed.

End Streams.

(** * Further properties of the driver *)

Section DriverRuns.

Context {value : Type}.
Variable clk : nat -> Z.
Variable endpoint : string -> @Message value -> string + list item.
Variable json_content : bytes -> string + string.
Variable get_token_length : string -> nat.

(** X13.  When the endpoint answers with a stream that the reader reads to
    its end and the body decodes, [send_llm_request] returns the decoded
    text with a metrics record that has no error, the token count of that
    text, the prompt's token count, and one inter-token duration for each
    line read. *)
Theorem successful_request_returns_decoded_text
    fuel env request_config h event_stream ls text :
  (forall name, name ∈ required -> configured env name) ->
  endpoint (model request_config)
    (message_of (prompt request_config).1
       (rename_max_tokens (sampling_params request_config) h
          !!! sampling_params request_config))
  = inr event_stream ->
  lines clk fuel (LineIterator_init event_stream) 1 = Some (ls, None) ->
  json_content (concat (map line_of ls)) = inr text ->
  exists m,
    (send_llm_request clk endpoint json_content get_token_length
       fuel env request_config h).1.1 = Some (Returned m text)
    /\ error_msg m = None /\ error_code m = None
    /\ num_output_tokens m = get_token_length text
    /\ num_prompt_tokens m = (prompt request_config).2
    /\ length (inter_token_times m) = length ls.
Proof.
  intros Hall Hep El Hjs. rewrite (send_configured _ _ _ _ _ _ _ _ Hall).
  unfold try_block. cbv zeta. rewrite Hep.
  destruct (for_loop_lines clk clk fuel (LineIterator_init event_stream)
              (LineIterator_init event_stream) 1 1 ls None [] [] (clk 0)
              ltac:(repeat split) El) as (itt' & -> & Hlen).
  simpl. rewrite Hjs. eexists. split; [reflexivity|]. repeat split.
  assumption.
Qed.

(** X14.  Every metrics record that [send_llm_request] returns is of one of
    two kinds: without error message and without error code, and with the
    token count of the returned text; or with an error message, error code
    500 and no output tokens.  It always carries the prompt's token count. *)
Theorem returned_metrics_are_success_or_error
    fuel env request_config h m text h' net :
  send_llm_request clk endpoint json_content get_token_length
    fuel env request_config h = (Some (Returned m text), h', net) ->
  num_prompt_tokens m = (prompt request_config).2
  /\ ((error_msg m = None /\ error_code m = None
       /\ num_output_tokens m = get_token_length text)
      \/ (exists msg, error_msg m = Some msg /\ error_code m = Some 500%Z
            /\ num_output_tokens m = 0)).
Proof.
  intros H.
  pose proof (send_returned_configured _ _ _ _ _ _ _ _ _ _ _ _ H) as Hall.
  rewrite (send_configured _ _ _ _ _ _ _ _ Hall) in H. cbv zeta in H.
  unfold try_block in H.
  destruct (endpoint _ _) as [e|event_stream].
  - injection H as <- <- _ _. split; [reflexivity|]. right. eauto.
  - destruct (for_loop _ _ _ _ _ _ _) as [[[[e|] jb] itt]|]; [| |discriminate].
    + injection H as <- <- _ _. split; [reflexivity|]. right. eauto.
    + destruct (json_content jb) as [e|txt]; injection H as <- <- _ _;
        (split; [reflexivity|]); [right; eauto | left; auto].
Qed.

Lemma for_loop_nonnegative fuel : forall it t jb itt mr j e jb' itt',
  (forall a c, a <= c -> (clk a <= clk c)%Z) ->
  j <= t -> mr = clk j ->
  Forall (fun d => (0 <= d)%Z) itt ->
  for_loop clk fuel it t jb itt mr = Some (e, jb', itt') ->
  Forall (fun d => (0 <= d)%Z) itt'.
Proof.
  induction fuel as [|fuel IH];
    intros it t jb itt mr j e jb' itt' Hmono Hj Hmr Hitt H; [discriminate|].
  simpl in H.
  destruct (__next__ clk fuel it t) as [[[sig it1] t1]|] eqn:E; [|discriminate].
  destruct (next_grows clk _ _ _ _ _ _ E) as (_ & Ht & _).
  destruct sig as [line first now| |msg|];
    try (injection H as <- <- <-; assumption).
  eapply (IH _ _ _ _ _ (S t1));
    [exact Hmono | | reflexivity | | exact H]; [lia|].
  apply Forall_app. split; [assumption|]. constructor; [|constructor].
  subst mr. assert (clk j <= clk t1)%Z by (apply Hmono; lia). lia.
Qed.

(** X15.  If the clock never runs backwards, no inter-token duration in a
    returned metrics record is negative. *)
Theorem inter_token_times_are_not_negative
    fuel env request_config h m text h' net :
  (forall a c, a <= c -> (clk a <= clk c)%Z) ->
  send_llm_request clk endpoint json_content get_token_length
    fuel env request_config h = (Some (Returned m text), h', net) ->
  Forall (fun d => (0 <= d)%Z) (inter_token_times m).
Proof.
  intros Hmono H.
  pose proof (send_returned_configured _ _ _ _ _ _ _ _ _ _ _ _ H) as Hall.
  rewrite (send_configured _ _ _ _ _ _ _ _ Hall) in H. cbv zeta in H.
  unfold try_block in H.
  destruct (endpoint _ _) as [e|event_stream].
  - injection H as <- _ _ _. constructor.
  - destruct (for_loop _ _ _ _ _ _ _) as [[[e jb] itt]|] eqn:Ef; [|discriminate].
    assert (Forall (fun d => (0 <= d)%Z) itt) as Hitt.
    { eapply (for_loop_nonnegative _ _ _ _ _ _ 0);
        [exact Hmono | | reflexivity | constructor | exact Ef]. lia. }
    destruct e as [e|]; [now injection H as <- _ _ _|].
    destruct (json_content jb) as [e|txt]; now injection H as <- _ _ _.
Qed.

Lemma for_loop_none clk' fuel : forall it1 it2 t1 t2 jb itt mr,
  same_reading it1 it2 ->
  lines clk' fuel it2 t2 = None ->
  for_loop clk fuel it1 t1 jb itt mr = None.
Proof.
  induction fuel as [|fuel IH]; intros it1 it2 t1 t2 jb itt mr HR H;
    [reflexivity|].
  rewrite lines_unfold in H. simpl.
  destruct (__next__ clk fuel it1 t1) as [[[s1 it1'] t1']|] eqn:E1;
    [|reflexivity].
  destruct (next_same_reading clk clk' fuel _ _ t1 t2 _ _ _ HR E1)
    as (s2 & it2' & t2' & E2 & Hs & HR').
  rewrite E2 in H.
  destruct s1 as [l f n| |m|], s2 as [l2 f2 n2| |m2|]; try contradiction;
    try discriminate.
  destruct (lines clk' fuel it2' t2') as [[ls e]|] eqn:El; [discriminate|].
  apply (IH _ _ _ _ _ _ _ HR' El).
Qed.

(** X16.  While iterating the reader over the response does not come to an
    end, [send_llm_request] does not return: nothing in the driver bounds
    the wait. *)
Theorem request_does_not_return_while_reader_runs
    fuel env request_config h event_stream :
  (forall name, name ∈ required -> configured env name) ->
  endpoint (model request_config)
    (message_of (prompt request_config).1
       (rename_max_tokens (sampling_params request_config) h
          !!! sampling_params request_config))
  = inr event_stream ->
  lines clk fuel (LineIterator_init event_stream) 1 = None ->
  (send_llm_request clk endpoint json_content get_token_length
     fuel env request_config h).1.1 = None.
Proof.
  intros Hall Hep El. rewrite (send_configured _ _ _ _ _ _ _ _ Hall).
  unfold try_block. cbv zeta. rewrite Hep.
  now rewrite (for_loop_none clk fuel (LineIterator_init event_stream)
                 (LineIterator_init event_stream) 1 1 [] [] (clk 0)
                 ltac:(repeat split) El).
Qed.

(** X20.  What is decoded is the stream's payload with the delimiters
    taken out.  When the stream is read to its end, the request returns the
    text the decoder finds in those bytes, without error, or the decoder's
    failure as the error, with the empty string as text. *)
Theorem decoded_body_is_payload_without_delimiters
    fuel env request_config h event_stream ls :
  (forall name, name ∈ required -> configured env name) ->
  endpoint (model request_config)
    (message_of (prompt request_config).1
       (rename_max_tokens (sampling_params request_config) h
          !!! sampling_params request_config))
  = inr event_stream ->
  lines clk fuel (LineIterator_init event_stream) 1 = Some (ls, None) ->
  exists m text,
    (send_llm_request clk endpoint json_content get_token_length
       fuel env request_config h).1.1 = Some (Returned m text)
    /\ match json_content (without_newlines (payload_bytes event_stream)) with
       | inr decoded => text = decoded /\ error_msg m = None
       | inl msg => text = EmptyString /\ error_msg m = Some msg
       end.
Proof.
  intros Hall Hep El. rewrite (send_configured _ _ _ _ _ _ _ _ Hall).
  unfold try_block. cbv zeta. rewrite Hep.
  destruct (for_loop_lines clk clk fuel (LineIterator_init event_stream)
              (LineIterator_init event_stream) 1 1 ls None [] [] (clk 0)
              ltac:(repeat split) El) as (itt' & -> & Hlen).
  pose proof (lines_data clk fuel _ _ _ (cursor_ok_init event_stream) El) as Hd.
  unfold pending_data, unconsumed in Hd. simpl in Hd. simpl. rewrite Hd.
  destruct (json_content _) as [msg|decoded]; do 2 eexists;
    (split; [reflexivity|]); split; reflexivity.
Qed.

End DriverRuns.

Section DriverStore.

Context {value : Type}.
Variable clk : nat -> Z.
Variable endpoint : string -> @Message value -> string + list item.
Variable json_content : bytes -> string + string.
Variable get_token_length : string -> nat.

Lemma rename_max_tokens_absent l (h : gmap loc (gmap string value)) :
  (h !!! l) !! "max_tokens" = None -> rename_max_tokens l h = h.
Proof. intros H. unfold rename_max_tokens. now rewrite H. Qed.

Lemma rename_max_tokens_idem l (h : gmap loc (gmap string value)) :
  rename_max_tokens l (rename_max_tokens l h) = rename_max_tokens l h.
Proof.
  destruct ((h !!! l) !! "max_tokens") as [v|] eqn:Hv.
  - rewrite (rename_max_tokens_renames _ _ _ Hv).
    apply rename_max_tokens_absent.
    rewrite lookup_total_insert_eq. apply lookup_delete_eq.
  - now rewrite !(rename_max_tokens_absent _ _ Hv).
Qed.

(** Past the configuration check, the store left behind and the network
    events are the same however the request then goes. *)
Lemma send_store fuel env request_config h :
  (forall name, name ∈ required -> configured env name) ->
  (send_llm_request clk endpoint json_content get_token_length
     fuel env request_config h).1.2
  = rename_max_tokens (sampling_params request_config) h.
Proof.
  intros Hall. rewrite (send_configured _ _ _ _ _ _ _ _ Hall). cbv zeta.
  destruct (try_block _ _ _ _ _ _ _ _) as [[[[e itt] text] n]|]; reflexivity.
Qed.

Lemma send_net fuel env request_config h :
  (forall name, name ∈ required -> configured env name) ->
  (send_llm_request clk endpoint json_content get_token_length
     fuel env request_config h).2
  = [boto3_client "sagemaker-runtime" (env !! "AWS_REGION_NAME");
     invoke_endpoint_with_response_stream (model request_config)
       "application/json"
       (message_of (prompt request_config).1
          (rename_max_tokens (sampling_params request_config) h
             !!! sampling_params request_config))
       "accept_eula=true"].
Proof.
  intros Hall. rewrite (send_configured _ _ _ _ _ _ _ _ Hall). cbv zeta.
  destruct (try_block _ _ _ _ _ _ _ _) as [[[[e itt] text] n]|]; reflexivity.
Qed.

(** X17.  When the sampling parameters have no [max_tokens], the caller's
    store is left as it was and the parameters block of the payload is the
    caller's mapping, key for key. *)
Theorem parameters_without_max_tokens_pass_unchanged
    fuel env request_config h :
  (forall name, name ∈ required -> configured env name) ->
  (h !!! sampling_params request_config) !! "max_tokens" = None ->
  (send_llm_request clk endpoint json_content get_token_length
     fuel env request_config h).1.2 = h
  /\ (send_llm_request clk endpoint json_content get_token_length
        fuel env request_config h).2
     = [boto3_client "sagemaker-runtime" (env !! "AWS_REGION_NAME");
        invoke_endpoint_with_response_stream (model request_config)
          "application/json"
          (message_of (prompt request_config).1
             (h !!! sampling_params request_config))
          "accept_eula=true"].
Proof.
  intros Hall Hv.
  rewrite (send_net _ _ _ _ Hall), (send_store _ _ _ _ Hall).
  now rewrite (rename_max_tokens_absent _ _ Hv).
Qed.

(** X18.  The renaming happens once.  A second request made with the same
    configuration on the store the first one left behind changes nothing
    more in the store and sends the same payload as the first. *)
Theorem second_request_sends_the_same_parameters
    fuel fuel' env request_config h :
  (forall name, name ∈ required -> configured env name) ->
  let first :=
    send_llm_request clk endpoint json_content get_token_length
      fuel env request_config h in
  let second :=
    send_llm_request clk endpoint json_content get_token_length
      fuel' env request_config first.1.2 in
  second.1.2 = first.1.2 /\ second.2 = first.2.
Proof.
  intros Hall first second. subst first second.
  rewrite !(send_net _ _ _ _ Hall), !(send_store _ _ _ _ Hall).
  now rewrite rename_max_tokens_idem.
Qed.

(** X19.  The configuration error names the first variable, in the order
    access key, secret key, region, that is unset or empty; the store is
    untouched and nothing reaches the network. *)
Theorem configuration_error_names_first_unset fuel env request_config h :
  (~ configured env "AWS_ACCESS_KEY_ID" ->
   send_llm_request clk endpoint json_content get_token_length
     fuel env request_config h
   = (Some (Raised "AWS_ACCESS_KEY_ID must be set."), h, []))
  /\ (configured env "AWS_ACCESS_KEY_ID" ->
      ~ configured env "AWS_SECRET_ACCESS_KEY" ->
      send_llm_request clk endpoint json_content get_token_length
        fuel env request_config h
      = (Some (Raised "AWS_SECRET_ACCESS_KEY must be set."), h, []))
  /\ (configured env "AWS_ACCESS_KEY_ID" ->
      configured env "AWS_SECRET_ACCESS_KEY" ->
      ~ configured env "AWS_REGION_NAME" ->
      send_llm_request clk endpoint json_content get_token_length
        fuel env request_config h
      = (Some (Raised "AWS_REGION_NAME must be set."), h, [])).
Proof.
  unfold send_llm_request. repeat split.
  - intros H1%unset_true. now rewrite H1.
  - intros H1%unset_false H2%unset_true. now rewrite H1, H2.
  - intros H1%unset_false H2%unset_false H3%unset_true. now rewrite H1, H2, H3.
Qed.

End DriverStore.

(** * The further properties on concrete runs *)

Ltac no_newline :=
  let H := fresh in
  intros H; repeat (apply elem_of_cons in H as [H|H]; [discriminate|]);
  now apply elem_of_nil in H.

Lemma cursor_advances_in_growing_buffer_witness :
  read_pos example_reader <= read_pos example_reader_after
    <= length (buffer example_reader_after)
  /\ (exists bs, buffer example_reader_after = buffer example_reader ++ bs)
  /\ take (read_pos example_reader) (buffer example_reader_after)
     = take (read_pos example_reader) (buffer example_reader).
Proof.
  apply (cursor_advances_in_growing_buffer ticks 3 example_reader 0
           (Return (lit "x") 1%Z 2%Z) example_reader_after 2).
  - unfold cursor_ok. simpl. lia.
  - reflexivity.
Defined.

Lemma returned_line_heads_pending_data_witness :
  (newline ∉ lit "x")
  /\ (pending_data example_reader
      = lit "x" ++ newline :: pending_data example_reader_after
      \/ (length (lit "x") = 1
          /\ pending_data example_reader
             = lit "x" ++ pending_data example_reader_after)).
Proof.
  apply (returned_line_heads_pending_data ticks 3 example_reader 0
           (lit "x") 1%Z 2%Z example_reader_after 2).
  - unfold cursor_ok. simpl. lia.
  - reflexivity.
Defined.

Lemma stop_only_when_all_is_delivered_witness :
  pending_data (LineIterator_init [Chunk (UnknownEvent "ping")]) = []
  /\ byte_iterator (LineIterator_init []) = []
  /\ read_pos (LineIterator_init []) = length (buffer (LineIterator_init [])).
Proof.
  apply (stop_only_when_all_is_delivered ticks 3
           (LineIterator_init [Chunk (UnknownEvent "ping")]) 0
           (LineIterator_init []) 0).
  - unfold cursor_ok. simpl. lia.
  - reflexivity.
Defined.

Lemma lines_are_the_data_without_delimiters_witness :
  concat (map line_of [(lit "x", 1%Z, 2%Z); (lit "]", 1%Z, 3%Z)])
  = without_newlines (pending_data example_reader)
  /\ length (pending_data example_reader)
     - length (without_newlines (pending_data example_reader))
     <= length [(lit "x", 1%Z, 2%Z); (lit "]", 1%Z, 3%Z)].
Proof.
  apply (lines_are_the_data_without_delimiters ticks 8 example_reader 0).
  - unfold cursor_ok. simpl. lia.
  - reflexivity.
Defined.

Lemma set_ttft_is_reported_with_every_line_witness :
  Forall (fun triple => triple.1.2 = ttft example_reader_after)
    [(lit "]", 1%Z, 3%Z)].
Proof.
  apply (set_ttft_is_reported_with_every_line ticks 4 example_reader_after 2
           [(lit "]", 1%Z, 3%Z)] None).
  - simpl. lia.
  - reflexivity.
Defined.

Lemma exhausted_reader_with_undelimited_bytes_hangs_witness :
  __next__ ticks 100
    {| byte_iterator := []; buffer := lit "abc"; read_pos := 1; ttft := 0%Z |} 0
  = None
  /\ lines ticks 100
       {| byte_iterator := []; buffer := lit "abc"; read_pos := 1; ttft := 0%Z |} 0
     = None.
Proof.
  apply (exhausted_reader_with_undelimited_bytes_hangs ticks
           {| byte_iterator := []; buffer := lit "abc"; read_pos := 1;
              ttft := 0%Z |} 0).
  - reflexivity.
  - simpl. no_newline.
  - simpl. lia.
Defined.

Lemma reader_finishes_when_tail_is_short_witness :
  exists fuel ls e, lines ticks fuel example_reader 0 = Some (ls, e).
Proof.
  apply (reader_finishes_when_tail_is_short ticks example_reader 0).
  - unfold cursor_ok. simpl. lia.
  - apply (tail_at_most_one_byte_two (lit "x") newline "]"%byte). now left.
Defined.

Lemma line_across_chunks_witness :
  exists first now it' t',
    __next__ ticks 2
      {| byte_iterator := [Chunk (PayloadPart (lit "cd" ++ newline :: lit "e"))];
         buffer := lit "ab"; read_pos := 0; ttft := 0%Z |} 0
    = Some (Return (lit "ab" ++ lit "cd") first now, it', t')
    /\ unconsumed it' = lit "e" /\ byte_iterator it' = [].
Proof.
  apply (line_across_chunks ticks
           {| byte_iterator := [Chunk (PayloadPart (lit "cd" ++ newline :: lit "e"))];
              buffer := lit "ab"; read_pos := 0; ttft := 0%Z |} 0
           (lit "ab") (lit "cd") (lit "e") []).
  - unfold cursor_ok. simpl. lia.
  - reflexivity.
  - simpl. lia.
  - reflexivity.
  - simpl. no_newline.
  - simpl. no_newline.
Defined.

Lemma single_chunk_lines_witness :
  exists fuel ls,
    lines ticks fuel
      (LineIterator_init
         [Chunk (PayloadPart (reinsert [lit "a"; lit "b"] ++ ["]"%byte]))]) 0
    = Some (ls, None)
    /\ map line_of ls = [lit "a"; lit "b"] ++ [["]"%byte]].
Proof.
  apply (single_chunk_lines ticks [lit "a"; lit "b"] "]"%byte 0).
  - repeat constructor; simpl; no_newline.
  - discriminate.
Defined.

Lemma lines_do_not_depend_on_the_clock_witness :
  exists ls2,
    lines (fun _ => 0%Z) 8 example_reader 5 = Some (ls2, None)
    /\ map line_of ls2
       = map line_of [(lit "x", 1%Z, 2%Z); (lit "]", 1%Z, 3%Z)].
Proof.
  apply (lines_do_not_depend_on_the_clock ticks (fun _ => 0%Z) 8
           example_reader example_reader 0 5).
  - repeat split.
  - reflexivity.
Defined.

Lemma raised_exception_comes_from_the_stream_witness :
  Fault "boom"
  ∈ byte_iterator
      (LineIterator_init
         [Chunk (PayloadPart (lit "x" ++ [newline])); Fault "boom"]).
Proof.
  apply (raised_exception_comes_from_the_stream ticks 8
           (LineIterator_init
              [Chunk (PayloadPart (lit "x" ++ [newline])); Fault "boom"]) 0
           [(lit "x", 1%Z, 2%Z)] "boom").
  reflexivity.
Defined.

Lemma successful_request_returns_decoded_text_witness :
  exists m,
    (send_llm_request ticks example_endpoint_ok example_json_ok String.length
       8 example_env example_request example_store).1.1
    = Some (Returned m "hi")
    /\ error_msg m = None /\ error_code m = None
    /\ num_output_tokens m = String.length "hi"
    /\ num_prompt_tokens m = (prompt example_request).2
    /\ length (inter_token_times m)
       = length [(lit "[x", 2%Z, 3%Z); (lit "]", 2%Z, 4%Z)].
Proof.
  apply (successful_request_returns_decoded_text ticks example_endpoint_ok
           example_json_ok String.length 8 example_env example_request
           example_store
           [Chunk (PayloadPart (lit "[x" ++ [newline]));
            Chunk (PayloadPart (lit "]"))]).
  - exact example_env_configured.
  - reflexivity.
  - vm_compute. reflexivity.
  - reflexivity.
Defined.

Lemma returned_metrics_are_success_or_error_witness :
  let m := {| inter_token_times := [3%Z]; num_prompt_tokens := 1;
              num_output_tokens := 0; error_code := Some 500%Z;
              error_msg := Some "boom" |} in
  num_prompt_tokens m = (prompt example_request).2
  /\ ((error_msg m = None /\ error_code m = None
       /\ num_output_tokens m = String.length EmptyString)
      \/ (exists msg, error_msg m = Some msg /\ error_code m = Some 500%Z
            /\ num_output_tokens m = 0)).
Proof.
  apply (returned_metrics_are_success_or_error ticks example_endpoint
           example_json String.length 8 example_env example_request
           example_store _ EmptyString
           (<[0 := <["max_new_tokens" := 50%Z]> (<["top_k" := 4%Z]> ∅)]> ∅)
           [boto3_client "sagemaker-runtime" (Some "eu-west-1");
            invoke_endpoint_with_response_stream "llama" "application/json"
              (message_of "hello"
                 (<["max_new_tokens" := 50%Z]> (<["top_k" := 4%Z]> ∅)))
              "accept_eula=true"]).
  vm_compute. reflexivity.
Defined.

Lemma inter_token_times_are_not_negative_witness :
  Forall (fun d => (0 <= d)%Z)
    (inter_token_times
       {| inter_token_times := [3%Z]; num_prompt_tokens := 1;
          num_output_tokens := 0; error_code := Some 500%Z;
          error_msg := Some "boom" |}).
Proof.
  apply (inter_token_times_are_not_negative ticks example_endpoint
           example_json String.length 8 example_env example_request
           example_store _ EmptyString
           (<[0 := <["max_new_tokens" := 50%Z]> (<["top_k" := 4%Z]> ∅)]> ∅)
           [boto3_client "sagemaker-runtime" (Some "eu-west-1");
            invoke_endpoint_with_response_stream "llama" "application/json"
              (message_of "hello"
                 (<["max_new_tokens" := 50%Z]> (<["top_k" := 4%Z]> ∅)))
              "accept_eula=true"]).
  - intros a c Hac. unfold ticks. lia.
  - vm_compute. reflexivity.
Defined.

Lemma request_does_not_return_while_reader_runs_witness :
  (send_llm_request ticks example_endpoint_hang example_json String.length
     8 example_env example_request example_store).1.1 = None.
Proof.
  apply (request_does_not_return_while_reader_runs ticks example_endpoint_hang
           example_json String.length 8 example_env example_request
           example_store [Chunk (PayloadPart (lit "ab"))]).
  - exact example_env_configured.
  - reflexivity.
  - vm_compute. reflexivity.
Defined.

Lemma parameters_without_max_tokens_pass_unchanged_witness :
  (send_llm_request ticks example_endpoint example_json String.length
     8 example_env example_request example_store_plain).1.2
  = example_store_plain
  /\ (send_llm_request ticks example_endpoint example_json String.length
        8 example_env example_request example_store_plain).2
     = [boto3_client "sagemaker-runtime" (example_env !! "AWS_REGION_NAME");
        invoke_endpoint_with_response_stream (model example_request)
          "application/json"
          (message_of (prompt example_request).1
             (example_store_plain !!! sampling_params example_request))
          "accept_eula=true"].
Proof.
  apply (parameters_without_max_tokens_pass_unchanged ticks example_endpoint
           example_json String.length 8 example_env example_request
           example_store_plain).
  - exact example_env_configured.
  - vm_compute. reflexivity.
Defined.

Lemma second_request_sends_the_same_parameters_witness :
  let first :=
    send_llm_request ticks example_endpoint example_json String.length
      8 example_env example_request example_store in
  let second :=
    send_llm_request ticks example_endpoint example_json String.length
      8 example_env example_request first.1.2 in
  second.1.2 = first.1.2 /\ second.2 = first.2.
Proof.
  apply (second_request_sends_the_same_parameters ticks example_endpoint
           example_json String.length 8 8 example_env example_request
           example_store).
  exact example_env_configured.
Defined.

Lemma configuration_error_names_first_unset_witness :
  send_llm_request ticks example_endpoint example_json String.length
    8 ∅ example_request example_store
  = (Some (Raised "AWS_ACCESS_KEY_ID must be set."), example_store, [])
  /\ send_llm_request ticks example_endpoint example_json String.length
       8 (delete "AWS_SECRET_ACCESS_KEY" example_env) example_request
       example_store
     = (Some (Raised "AWS_SECRET_ACCESS_KEY must be set."), example_store, [])
  /\ send_llm_request ticks example_endpoint example_json String.length
       8 (delete "AWS_REGION_NAME" example_env) example_request example_store
     = (Some (Raised "AWS_REGION_NAME must be set."), example_store, []).
Proof.
  split; [|split].
  - apply (proj1 (configuration_error_names_first_unset ticks example_endpoint
                    example_json String.length 8 ∅ example_request
                    example_store)).
    intros (v & Hv & _). vm_compute in Hv. discriminate.
  - apply (proj1 (proj2 (configuration_error_names_first_unset ticks
                           example_endpoint example_json String.length 8
                           (delete "AWS_SECRET_ACCESS_KEY" example_env)
                           example_request example_store))).
    + eexists. split; [vm_compute; reflexivity | discriminate].
    + intros (v & Hv & _). vm_compute in Hv. discriminate.
  - apply (proj2 (proj2 (configuration_error_names_first_unset ticks
                           example_endpoint example_json String.length 8
                           (delete "AWS_REGION_NAME" example_env)
                           example_request example_store))).
    + eexists. split; [vm_compute; reflexivity | discriminate].
    + eexists. split; [vm_compute; reflexivity | discriminate].
    + intros (v & Hv & _). vm_compute in Hv. discriminate.
Defined.

Lemma decoded_body_is_payload_without_delimiters_witness :
  exists m text,
    (send_llm_request ticks example_endpoint_ok example_json_ok String.length
       8 example_env example_request example_store).1.1
    = Some (Returned m text)
    /\ match example_json_ok
               (without_newlines
                  (payload_bytes
                     [Chunk (PayloadPart (lit "[x" ++ [newline]));
                      Chunk (PayloadPart (lit "]"))])) with
       | inr decoded => text = decoded /\ error_msg m = None
       | inl msg => text = EmptyString /\ error_msg m = Some msg
       end.
Proof.
  apply (decoded_body_is_payload_without_delimiters ticks example_endpoint_ok
           example_json_ok String.length 8 example_env example_request
           example_store
           [Chunk (PayloadPart (lit "[x" ++ [newline]));
            Chunk (PayloadPart (lit "]"))]
           [(lit "[x", 2%Z, 3%Z); (lit "]", 2%Z, 4%Z)]).
  - exact example_env_configured.
  - reflexivity.
  - vm_compute. reflexivity.
Defined.
